(** * smart-shell: command resolution and translation pipeline

    A shallow embedding of the pure core of the smart-shell MCP server
    (splitPipelines, translateSingle, translateCommandForOS, quoteArg,
    resolveProjectCommand, removeProjectCommand, buildSuggestion and the
    executeCommand handler) together with the properties its design
    document states about them.

    Modelling conventions.
    - A JavaScript string is a sequence of UTF-16 code units.  The model
      covers the code units U+0000..U+00FF (Rocq's [ascii]); on that range
      [toLowerCase], [trim], the regular-expression classes [\s], [\S],
      [\w] and the assertion [\b] are defined as ECMAScript defines them.
    - An object obtained from [JSON.parse] is modelled by its own
      properties: a [gmap] where only lookups matter, an association list
      in [Object.keys] order where the code iterates over the keys.
    - The file system and the process spawner are explicit state: the two
      JSON documents, the lock-file probes, a log of the documents written
      and a log of the command lines handed to the shell. *)

From Stdlib Require Import String Ascii ZArith Bool List DecimalString.
From stdpp Require Import gmap strings list.
Import ListNotations.
Local Open Scope string_scope.

(** ** ECMAScript string primitives *)

Module Js.

Definition code (c : ascii) : nat := nat_of_ascii c.

Definition between (lo hi n : nat) : bool := (lo <=? n)%nat && (n <=? hi)%nat.

(** WhiteSpace and LineTerminator code units below U+0100: TAB, LF, VT,
    FF, CR, SP and NBSP.  This is the class [\s] and what [trim] strips. *)
Definition isSpace (c : ascii) : bool :=
  let n := code c in between 9 13 n || (n =? 32)%nat || (n =? 160)%nat.

(** The class [\w]: [A-Za-z0-9_]. *)
Definition isWordChar (c : ascii) : bool :=
  let n := code c in
  between 48 57 n || between 65 90 n || (n =? 95)%nat || between 97 122 n.

(** [toLowerCase] on one code unit: A-Z, and the Latin-1 capitals
    U+00C0..U+00DE except the multiplication sign U+00D7. *)
Definition lowerUnit (c : ascii) : ascii :=
  let n := code c in
  if between 65 90 n || (between 192 222 n && negb (n =? 215)%nat)
  then ascii_of_nat (n + 32) else c.

Fixpoint toLowerCase (s : string) : string :=
  match s with
  | EmptyString => EmptyString
  | String c s' => String (lowerUnit c) (toLowerCase s')
  end.

Fixpoint trimStart (s : string) : string :=
  match s with
  | EmptyString => EmptyString
  | String c s' => if isSpace c then trimStart s' else s
  end.

Fixpoint trimEnd (s : string) : string :=
  match s with
  | EmptyString => EmptyString
  | String c s' =>
      match trimEnd s' with
      | EmptyString => if isSpace c then EmptyString else String c EmptyString
      | r => String c r
      end
  end.

Definition trim (s : string) : string := trimEnd (trimStart s).

(** Truthiness of a string: only the empty string is falsy. *)
Definition truthy (s : string) : bool :=
  match s with EmptyString => false | String _ _ => true end.

(** [s.startsWith(pat)] *)
Fixpoint startsWith (s pat : string) {struct pat} : bool :=
  match pat with
  | EmptyString => true
  | String p pat' =>
      match s with
      | EmptyString => false
      | String c s' => Ascii.eqb c p && startsWith s' pat'
      end
  end.

(** [s.includes(pat)]. *)
Fixpoint includes (s pat : string) : bool :=
  startsWith s pat ||
  match s with
  | EmptyString => false
  | String _ s' => includes s' pat
  end.

(** [parts.join(sep)]. *)
Fixpoint join (sep : string) (parts : list string) : string :=
  match parts with
  | [] => EmptyString
  | [p] => p
  | p :: rest => p ++ sep ++ join sep rest
  end.

(** The assertion [\b] between a previous code unit (if any) and the
    rest of the input. *)
Definition wordBefore (prev : option ascii) : bool :=
  match prev with Some c => isWordChar c | None => false end.

Definition wordAhead (s : string) : bool :=
  match s with String c _ => isWordChar c | EmptyString => false end.

Definition boundary (prev : option ascii) (s : string) : bool :=
  xorb (wordBefore prev) (wordAhead s).

Fixpoint dropUnits (n : nat) (s : string) : string :=
  match n, s with
  | S n', String _ s' => dropUnits n' s'
  | _, _ => s
  end.

Fixpoint lastUnit (prev : option ascii) (s : string) : option ascii :=
  match s with
  | EmptyString => prev
  | String c s' => lastUnit (Some c) s'
  end.

(** Does [/\b<lit>\b/] match with its first code unit at the head of [s],
    [prev] being the code unit before it? *)
Definition wordAt (lit : string) (prev : option ascii) (s : string) : bool :=
  boundary prev s && startsWith s lit &&
  boundary (lastUnit prev lit) (dropUnits (String.length lit) s).

(** [/\b<lit>\b/.test(s)], scanning from a position whose previous code
    unit is [prev]. *)
Fixpoint testWordFrom (lit : string) (prev : option ascii) (s : string) : bool :=
  wordAt lit prev s ||
  match s with
  | EmptyString => false
  | String c s' => testWordFrom lit (Some c) s'
  end.

Definition testWord (lit s : string) : bool := testWordFrom lit None s.

(** [s.replace(/\b<lit>\b/g, rep)] for a non-empty literal: leftmost
    matches, not overlapping; [skip] counts the code units of the match
    being consumed. *)
Fixpoint replaceWordFrom (lit rep : string) (skip : nat)
    (prev : option ascii) (s : string) : string :=
  match s with
  | EmptyString => EmptyString
  | String c s' =>
      match skip with
      | S k => replaceWordFrom lit rep k (Some c) s'
      | O =>
          if wordAt lit prev s
          then rep ++ replaceWordFrom lit rep (String.length lit - 1) (Some c) s'
          else String c (replaceWordFrom lit rep 0 (Some c) s')
      end
  end.

Definition replaceWord (lit rep s : string) : string :=
  replaceWordFrom lit rep 0 None s.

End Js.

(** ** Segment splitter *)

(** [if (buf.trim()) parts.push(buf.trim())], as the list of pushed items. *)
Definition flush (buf : string) : list string :=
  if Js.truthy (Js.trim buf) then [Js.trim buf] else [].

Definition isTwoSep (two : string) : bool :=
  String.eqb two "&&" || String.eqb two "||".

(** The [while] loop of splitPipelines: [s] is [cmd.slice(i)], the result
    is what is pushed onto [parts] from position [i] on. *)
Fixpoint splitLoop (buf : string) (s : string) : list string :=
  match s with
  | EmptyString => flush buf
  | String ch s' =>
      let single :=
        if Ascii.eqb ch "|" then (flush buf ++ "|" :: splitLoop EmptyString s')%list
        else if Ascii.eqb ch ";" then (flush buf ++ ";" :: splitLoop EmptyString s')%list
        else splitLoop (buf ++ String ch EmptyString) s' in
      match s' with
      | String ch2 rest =>
          let two := String ch (String ch2 EmptyString) in
          if isTwoSep two then (flush buf ++ two :: splitLoop EmptyString rest)%list
          else single
      | EmptyString => single
      end
  end.

Definition splitPipelines (cmd : string) : list string := splitLoop EmptyString cmd.

Definition separators : list string := ["&&"; "||"; "|"; ";"].

Definition isSeparator (seg : string) : bool :=
  existsb (String.eqb seg) separators.

(** The input contains one of the separators as a substring. *)
Definition containsSeparator (s : string) : bool :=
  existsb (Js.includes s) separators.

(** The view translateCommandForOS takes of an element of the sequence:
    a separator is passed through, a fragment is translated. *)
Inductive Token : Type :=
  | Fragment (text : string)
  | Separator (op : string).

Definition classify (seg : string) : Token :=
  if isSeparator seg then Separator seg else Fragment seg.


(** ** Per-segment translator *)

Inductive OS : Type := windows | linux | darwin.

(** One entry of [command-map.json]: the replacement token per OS, each of
    them possibly missing. *)
Record OsEntry : Type := MkOsEntry {
  onWindows : option string;
  onLinux : option string;
  onDarwin : option string
}.

(** [entry?.[os]] *)
Definition forOS (e : OsEntry) (os : OS) : option string :=
  match os with
  | windows => onWindows e
  | linux => onLinux e
  | darwin => onDarwin e
  end.

(** The translation table: the object [map.base], as its own properties in
    [Object.keys] order.  A map without [base] is the empty table. *)
Record CommandMap : Type := MkCommandMap { base : list (string * OsEntry) }.

(** [base[name]] *)
Fixpoint getEntry (name : string) (tbl : list (string * OsEntry)) : option OsEntry :=
  match tbl with
  | [] => None
  | (key, e) :: rest => if String.eqb key name then Some e else getEntry name rest
  end.

(** The regular expression of translateSingle, anchored at both ends with
    the dot-all flag: group 1 is the longest run of non-whitespace at the
    start (at least one code unit), group 2 everything after it. *)
Fixpoint spanNonSpace (s : string) : string * string :=
  match s with
  | EmptyString => (EmptyString, EmptyString)
  | String c s' =>
      if Js.isSpace c then (EmptyString, s)
      else let (h, t) := spanNonSpace s' in (String c h, t)
  end.

Definition matchHeadTail (cmd : string) : option (string * string) :=
  let (h, t) := spanNonSpace cmd in
  if Js.truthy h then Some (h, t) else None.

(** The [for (const key of Object.keys(base))] loop: the value assigned to
    [replacement] at the first key equal to the head up to case, [None]
    when the loop ends without a match. *)
Fixpoint scanKeys (lowerHead head : string) (os : OS)
    (tbl : list (string * OsEntry)) : option string :=
  match tbl with
  | [] => None
  | (key, e) :: rest =>
      if String.eqb lowerHead (Js.toLowerCase key)
      then Some (default head (forOS e os))
      else scanKeys lowerHead head os rest
  end.

(** [!replacement] for [replacement : string | undefined]. *)
Definition falsy (r : option string) : bool :=
  match r with Some s => negb (Js.truthy s) | None => true end.

(** Deleting the match of the anchored pattern [-rf] followed by any run
    of whitespace, as translateSingle does on the trimmed tail. *)
Definition stripRf (s : string) : string :=
  if Js.startsWith s "-rf" then Js.trimStart (Js.dropUnits 3 s) else s.

Definition translateSingle (cmd : string) (os : OS) (map : CommandMap) : string :=
  match matchHeadTail cmd with
  | None => cmd
  | Some (head, tail) =>
      let lowerHead := Js.toLowerCase head in
      let replacement := scanKeys lowerHead head os (base map) in
      let plain := Js.trim (default head replacement ++ tail) in
      if falsy replacement
         && (String.eqb lowerHead "rm" && Js.startsWith (Js.trim tail) "-rf")
      then
        match getEntry "rm -rf" (base map) ≫= (fun e => forOS e os) with
        | Some mapped =>
            if Js.truthy mapped
            then Js.trim (mapped ++ " " ++ stripRf (Js.trim tail))
            else plain
        | None => plain
        end
      else plain
  end.

(** The head matches a base key up to case. *)
Definition matchesHead (head key : string) : bool :=
  String.eqb (Js.toLowerCase head) (Js.toLowerCase key).

(** The first base key, in [Object.keys] order, that the head matches. *)
Definition directMatch (head : string) (tbl : list (string * OsEntry))
    : option (string * OsEntry) :=
  List.find (fun kv => matchesHead head (fst kv)) tbl.

(** The replacement the reserved compound key has for an OS. *)
Definition reservedFor (os : OS) (map : CommandMap) : option string :=
  getEntry "rm -rf" (base map) ≫= (fun e => forOS e os).

(** The recursive-delete rule applies: the head is [rm] up to case, the
    trimmed tail begins with [-rf] and the reserved key has a non-empty
    replacement. *)
Definition rmRuleApplies (head tail : string) (os : OS) (map : CommandMap) : bool :=
  String.eqb (Js.toLowerCase head) "rm"
  && Js.startsWith (Js.trim tail) "-rf"
  && negb (falsy (reservedFor os map)).

(** A fragment as the splitter pushes it: not empty, and equal to its own
    trimming. *)
Definition isFragment (seg : string) : bool :=
  Js.truthy seg && String.eqb (Js.trim seg) seg.

(** A table whose reserved compound key maps Windows to the empty string. *)
Definition emptyReservedMap : CommandMap :=
  MkCommandMap [("rm -rf", MkOsEntry (Some EmptyString) None None)].


(** The table of the README, with the reserved compound key added. *)
Definition sampleMap : CommandMap :=
  MkCommandMap [("ls", MkOsEntry (Some "dir") (Some "ls") (Some "ls"));
                ("open", MkOsEntry (Some "start") (Some "xdg-open") (Some "open"));
                ("rm -rf", MkOsEntry (Some "rmdir /s /q") None None)].

(** ** Command-line translator *)

Definition translateCommandForOS (raw : string) (os : OS) (map : CommandMap) : string :=
  Js.join " "
    (List.map (fun seg => if isSeparator seg then seg else translateSingle seg os map)
              (splitPipelines raw)).

(** ** Argument quoting *)

Definition dquote : ascii := ascii_of_nat 34.
Definition backslash : ascii := ascii_of_nat 92.

(** The character class [[A-Za-z0-9_\-\.\/]]. *)
Definition isBareChar (c : ascii) : bool :=
  let n := Js.code c in
  Js.between 65 90 n || Js.between 97 122 n || Js.between 48 57 n
  || (n =? 95)%nat || (n =? 45)%nat || (n =? 46)%nat || (n =? 47)%nat.

Fixpoint allUnits (p : ascii -> bool) (s : string) : bool :=
  match s with
  | EmptyString => true
  | String c s' => p c && allUnits p s'
  end.

(** A string is blank when it is empty or holds whitespace only. *)
Definition isBlank (s : string) : bool := allUnits Js.isSpace s.

(** The whole argument is a non-empty run of bare characters. *)
Definition isBareToken (a : string) : bool := Js.truthy a && allUnits isBareChar a.

(** Every double quote gets a backslash in front of it. *)
Fixpoint escapeQuotes (a : string) : string :=
  match a with
  | EmptyString => EmptyString
  | String c a' =>
      if Ascii.eqb c dquote
      then String backslash (String dquote (escapeQuotes a'))
      else String c (escapeQuotes a')
  end.

Definition quoteArg (a : string) : string :=
  if isBareToken a then a
  else String dquote (escapeQuotes a ++ String dquote EmptyString).

(** ** Suggestion engine *)

Record Flavor : Type := MkFlavor {
  bun : bool; yarn : bool; pnpm : bool; poetry : bool; pipenv : bool
}.

(** [key === name] for the optional parameter [key]. *)
Definition keyIs (key : option string) (name : string) : bool :=
  match key with Some k => String.eqb k name | None => false end.

Definition buildSuggestion (cmd stderr : string) (flavor : Flavor)
    (key : option string) : option string :=
  let lc := Js.toLowerCase cmd in
  let pipRules :=
    if Js.testWord "pip" lc then
      if poetry flavor then Some "poetry install"
      else if pipenv flavor then Some "pipenv install"
      else None
    else None in
  if Js.includes lc "npm " then
    if bun flavor then
      if keyIs key "install" then Some "bun install"
      else if keyIs key "run" then Some "bun run dev"
      else Some (Js.replaceWord "npm" "bun" cmd)
    else if yarn flavor then
      if keyIs key "install" then Some "yarn install"
      else Some (Js.replaceWord "npm run" "yarn" cmd)
    else if pnpm flavor then
      if keyIs key "install" then Some "pnpm install"
      else Some (Js.replaceWord "npm run" "pnpm run" cmd)
    else pipRules
  else pipRules.

(** The policy as the design document words it, rule by rule with the
    first matching rule winning: the pip rule is an alternative to the npm
    rule, tried only for a command that does not mention npm. *)
Definition documentedSuggestion (cmd : string) (flavor : Flavor)
    (key : option string) : option string :=
  let lc := Js.toLowerCase cmd in
  if Js.includes lc "npm " then
    if bun flavor then
      if keyIs key "install" then Some "bun install"
      else if keyIs key "run" then Some "bun run dev"
      else Some (Js.replaceWord "npm" "bun" cmd)
    else if yarn flavor then
      if keyIs key "install" then Some "yarn install"
      else Some (Js.replaceWord "npm run" "yarn" cmd)
    else if pnpm flavor then
      if keyIs key "install" then Some "pnpm install"
      else Some (Js.replaceWord "npm run" "pnpm run" cmd)
    else None
  else if Js.testWord "pip" lc then
    if poetry flavor then Some "poetry install"
    else if pipenv flavor then Some "pipenv install"
    else None
  else None.

Definition noFlavor : Flavor := MkFlavor false false false false false.

Definition poetryOnly : Flavor := MkFlavor false false false true false.

Definition yarnOnly : Flavor := MkFlavor false true false false false.

(** ** The host: configuration store, probes and process spawner *)

(** The command-key table of [project-commands.json]. *)
Abbreviation CommandKeys := (gmap string (gmap string string)).

(** What a call to [fs.writeFile] stored, per document. *)
Inductive Written : Type :=
  | WroteCommandMap (m : CommandMap)
  | WroteProjectCommands (t : CommandKeys).

(** The finger-prints detectProjectFlavor looks for in the working
    directory; a file that cannot be read counts as not matching. *)
Record Probes : Type := MkProbes {
  bunLockb : bool;
  packageManagerBun : bool;
  yarnLock : bool;
  pnpmLockYaml : bool;
  poetryLock : bool;
  pyprojectToolPoetry : bool;
  pipfile : bool
}.

(** A document is [None] when the file is missing or is not JSON. *)
Record World : Type := MkWorld {
  platform : string;
  commandMapFile : option CommandMap;
  projectCommandsFile : option CommandKeys;
  probes : Probes;
  written : list Written;
  spawned : list string
}.

(** What the child process reports when it closes. *)
Record ChildExit : Type := MkChildExit {
  childStdout : string;
  childStderr : string;
  childCode : option Z
}.

Record RunResult : Type := MkRunResult {
  stdout : string;
  stderr : string;
  exitCode : Z
}.

(** Computations over the host state. *)
Definition Host (A : Type) : Type := World -> A * World.

#[global] Instance Host_ret : MRet Host := fun A a w => (a, w).

#[global] Instance Host_bind : MBind Host :=
  fun A B k c w => let (a, w') := c w in k a w'.

Definition getOS : Host OS :=
  fun w =>
    (if String.eqb (platform w) "win32" then windows
     else if String.eqb (platform w) "darwin" then darwin
     else linux, w).

Definition storeCommandMap (m : CommandMap) : Host unit :=
  fun w => (tt, MkWorld (platform w) (Some m) (projectCommandsFile w) (probes w)
                        (written w ++ [WroteCommandMap m]) (spawned w)).

Definition storeCommandKeys (t : CommandKeys) : Host unit :=
  fun w => (tt, MkWorld (platform w) (commandMapFile w) (Some t) (probes w)
                        (written w ++ [WroteProjectCommands t]) (spawned w)).

(** [loadJson(COMMAND_MAP_PATH, fallback)]: an unreadable document is
    replaced by the fallback, which is written out. *)
Definition loadCommandMap (fallback : CommandMap) : Host CommandMap :=
  fun w =>
    match commandMapFile w with
    | Some m => (m, w)
    | None => (storeCommandMap fallback;; mret fallback) w
    end.

(** [loadJson(PROJECT_COMMANDS_PATH, fallback)] *)
Definition loadCommandKeys (fallback : CommandKeys) : Host CommandKeys :=
  fun w =>
    match projectCommandsFile w with
    | Some t => (t, w)
    | None => (storeCommandKeys fallback;; mret fallback) w
    end.

(** [saveJson(PROJECT_COMMANDS_PATH, data)] *)
Definition saveCommandKeys (data : CommandKeys) : Host unit := storeCommandKeys data.

Definition detectProjectFlavor : Host Flavor :=
  fun w =>
    let p := probes w in
    (MkFlavor (bunLockb p || packageManagerBun p) (yarnLock p) (pnpmLockYaml p)
              (poetryLock p || pyprojectToolPoetry p) (pipfile p), w).

(** ** Command resolver *)

Definition seedCommandKeys : CommandKeys :=
  {[ "default" := {[ "install" := "npm install"; "run" := "npm start" ]} ]}.

Definition emptyCommandKeys : CommandKeys := {[ "default" := ∅ ]}.

(** [table[name]?.[key]] *)
Definition subLookup (t : CommandKeys) (name key : string) : option string :=
  t !! name ≫= (fun sub => sub !! key).

Definition resolveProjectCommand (projectName key : string) : Host (option string) :=
  fileData ← loadCommandKeys seedCommandKeys;
  let fromDefault := subLookup fileData "default" key in
  let fromProject := subLookup fileData projectName key in
  mret (match fromProject with Some c => Some c | None => fromDefault end).

(** The result is the value of [removed]. *)
Definition removeProjectCommand (projectName key : string) : Host bool :=
  data ← loadCommandKeys emptyCommandKeys;
  match data !! projectName with
  | None => mret false
  | Some sub =>
      let existed := bool_decide (is_Some (sub !! key)) in
      saveCommandKeys (<[projectName := delete key sub]> data);;
      mret existed
  end.

(** The table a load sees: the stored one, or the fallback that replaces a
    missing or corrupt document. *)
Definition loaded {T : Type} (fallback : T) (file : option T) : T :=
  default fallback file.

(** Project entry first, then the entry of [default]. *)
Definition resolveIn (t : CommandKeys) (projectName key : string) : option string :=
  match subLookup t projectName key with
  | Some c => Some c
  | None => subLookup t "default" key
  end.

(** The table of the resolver-precedence example. *)
Definition sampleKeys : CommandKeys :=
  {[ "default" := {[ "install" := "npm install" ]};
     "p" := {[ "install" := "bun install" ]} ]}.

Definition sampleProbes : Probes := MkProbes false false false false true false false.

(** A host whose command-key document holds [sampleKeys] and whose
    command map is [sampleMap]; nothing written or run yet. *)
Definition sampleWorld : World :=
  MkWorld "win32" (Some sampleMap) (Some sampleKeys) sampleProbes [] [].

(** The OS and the flavor a request sees on a host. *)
Definition hostOS (w : World) : OS := fst (getOS w).

Definition hostFlavor (w : World) : Flavor := fst (detectProjectFlavor w).




Definition quietShell (command : string) : ChildExit :=
  MkChildExit "ok" EmptyString (Some 0%Z).



(** ** Execution orchestrator *)

(** The object serialised into the tool result; a field that is not set
    (or set to [undefined]) is [None]. *)
Record Payload : Type := MkPayload {
  p_errorCode : option string;
  p_message : option string;
  p_suggestion : option string;
  p_resolvedCommand : option string;
  p_stdout : option string;
  p_stderr : option string;
  p_exitCode : option Z
}.

(** An integer as a template literal prints it. *)
Definition showInt (z : Z) : string := NilZero.string_of_int (Z.to_int z).

Definition notFoundMessage (commandKey : string) : string :=
  "No command mapping found for key " ++ String dquote (commandKey ++ String dquote EmptyString).

Definition failedMessage (code : Z) : string :=
  "Command failed with exit code " ++ showInt code.

(** [[translated, ...(args || []).map(quoteArg)].filter(Boolean).join(" ")] *)
Definition commandLine (translated : string) (args : option (list string)) : string :=
  Js.join " " (List.filter Js.truthy (translated :: List.map quoteArg (default [] args))).

Section Server.

(** The process spawner: what a command line run through the shell
    reports. *)
Variable spawn : string -> ChildExit.

Definition runShell (command : string) : Host RunResult :=
  fun w =>
    let child := spawn command in
    (MkRunResult (childStdout child) (childStderr child) (default 0%Z (childCode child)),
     MkWorld (platform w) (commandMapFile w) (projectCommandsFile w) (probes w)
             (written w) (spawned w ++ [command])).

Definition executeCommand (projectName commandKey : string)
    (args : option (list string)) : Host Payload :=
  os ← getOS;
  cmdMap ← loadCommandMap (MkCommandMap []);
  projectCmd ← resolveProjectCommand projectName commandKey;
  flavor ← detectProjectFlavor;
  if falsy projectCmd then
    mret (MkPayload (Some "COMMAND_NOT_FOUND") (Some (notFoundMessage commandKey))
                   None None None None None)
  else
    let resolved := default EmptyString projectCmd in
    let translated := translateCommandForOS resolved os cmdMap in
    let full := commandLine translated args in
    run ← runShell full;
    if negb (exitCode run =? 0)%Z then
      let suggestion := buildSuggestion resolved (stderr run) flavor (Some commandKey) in
      mret (MkPayload (Some "COMMAND_FAILED") (Some (failedMessage (exitCode run)))
                     suggestion (Some full) (Some (stdout run)) (Some (stderr run))
                     (Some (exitCode run)))
    else
      mret (MkPayload None None None (Some full) (Some (stdout run)) (Some (stderr run))
                     (Some (exitCode run))).

End Server.

(** ** Companion operations of the resolver *)

(** The object spread of getMergedCommands: the entries of [default],
    overridden by those of the project.  [∪] on [gmap] prefers its left
    operand. *)
Definition getMergedCommands (projectName : string) : Host (gmap string string) :=
  data ← loadCommandKeys emptyCommandKeys;
  mret (default ∅ (data !! projectName) ∪ default ∅ (data !! "default")).


(** A host on which the command-key document is missing. *)
Definition freshWorld : World :=
  MkWorld "linux" None None sampleProbes [] [].

(** No entry of the table has a value for the OS. *)
Definition noValuesFor (os : OS) (map : CommandMap) : bool :=
  forallb (fun kv => match forOS (snd kv) os with None => true | Some _ => false end)
          (base map).

(** A table with values for Windows only. *)
Definition windowsOnlyMap : CommandMap :=
  MkCommandMap [("ls", MkOsEntry (Some "dir") None None);
                ("rm -rf", MkOsEntry (Some "rmdir /s /q") None None)].




(** * Properties *)

(** ** String lemmas *)

Lemma append_cons (c : ascii) (s t : string) : String c s ++ t = String c (s ++ t).
Proof. reflexivity. Qed.

Lemma append_empty_r (s : string) : s ++ EmptyString = s.
Proof. induction s as [|c s IH]; [reflexivity|]. rewrite append_cons. by rewrite IH. Qed.

Lemma append_snoc (buf : string) (c : ascii) (s : string) :
  (buf ++ String c EmptyString) ++ s = buf ++ String c s.
Proof.
  induction buf as [|b buf IH]; [reflexivity|].
  rewrite !append_cons. by rewrite IH.
Qed.

Lemma trimStart_blank (s : string) : isBlank s = true -> Js.trimStart s = EmptyString.
Proof.
  induction s as [|c s IH]; [reflexivity|]. cbn.
  destruct (Js.isSpace c); [exact IH | discriminate].
Qed.

Lemma trimStart_not_blank (s : string) :
  isBlank s = false ->
  exists c r, Js.trimStart s = String c r /\ Js.isSpace c = false.
Proof.
  induction s as [|c s IH]; [discriminate|]. cbn.
  destruct (Js.isSpace c) eqn:Hc; [exact IH | eauto].
Qed.

Lemma trimEnd_keeps_head (c : ascii) (r : string) :
  Js.isSpace c = false -> Js.truthy (Js.trimEnd (String c r)) = true.
Proof. intros Hc. cbn. rewrite Hc. by destruct (Js.trimEnd r). Qed.

Lemma trim_blank (s : string) : isBlank s = true -> Js.trim s = EmptyString.
Proof. intros H. unfold Js.trim. by rewrite trimStart_blank. Qed.

Lemma trim_not_blank (s : string) : isBlank s = false -> Js.truthy (Js.trim s) = true.
Proof.
  intros H. destruct (trimStart_not_blank s H) as (c & r & Hs & Hc).
  unfold Js.trim. rewrite Hs. by apply trimEnd_keeps_head.
Qed.

Lemma flush_blank (s : string) : isBlank s = true -> flush s = [].
Proof. intros H. unfold flush. by rewrite trim_blank. Qed.

Lemma flush_not_blank (s : string) : isBlank s = false -> flush s = [Js.trim s].
Proof. intros H. unfold flush. by rewrite trim_not_blank. Qed.

(** ** Segment splitter *)

Lemma includes_cons (c : ascii) (s pat : string) :
  Js.includes (String c s) pat = Js.startsWith (String c s) pat || Js.includes s pat.
Proof. reflexivity. Qed.

Lemma containsSeparator_cons (c : ascii) (s : string) :
  containsSeparator (String c s) = false ->
  containsSeparator s = false
  /\ Ascii.eqb c "|" = false /\ Ascii.eqb c ";" = false
  /\ Js.startsWith (String c s) "&&" = false
  /\ Js.startsWith (String c s) "||" = false.
Proof.
  unfold containsSeparator, separators. cbn [existsb]. rewrite !includes_cons.
  intros H.
  apply orb_false_elim in H as [Hand H]. apply orb_false_elim in H as [Hor H].
  apply orb_false_elim in H as [Hbar H]. apply orb_false_elim in H as [Hsemi _].
  apply orb_false_elim in Hand as [Hand1 Hand2].
  apply orb_false_elim in Hor as [Hor1 Hor2].
  apply orb_false_elim in Hbar as [Hbar1 Hbar2].
  apply orb_false_elim in Hsemi as [Hsemi1 Hsemi2].
  repeat split; try assumption.
  - by rewrite Hand2, Hor2, Hbar2, Hsemi2.
  - cbn [Js.startsWith] in Hbar1. by rewrite andb_true_r in Hbar1.
  - cbn [Js.startsWith] in Hsemi1. by rewrite andb_true_r in Hsemi1.
Qed.

(** Without a separator in the rest of the input the loop only grows the
    buffer, and flushes it once at the end. *)
Lemma splitLoop_plain (s : string) :
  forall buf, containsSeparator s = false -> splitLoop buf s = flush (buf ++ s).
Proof.
  induction s as [|ch s' IH]; intros buf H.
  - cbn. by rewrite append_empty_r.
  - apply containsSeparator_cons in H as (Hs' & Hbar & Hsemi & Hand & Hor).
    cbn [splitLoop]. rewrite Hbar, Hsemi.
    assert (Hsingle : splitLoop (buf ++ String ch EmptyString) s' = flush (buf ++ String ch s'))
      by (rewrite IH by assumption; by rewrite append_snoc).
    destruct s' as [|ch2 rest]; [exact Hsingle|].
    replace (isTwoSep (String ch (String ch2 EmptyString))) with false; [exact Hsingle|].
    cbn [Js.startsWith] in Hand, Hor. rewrite andb_true_r in Hand, Hor.
    unfold isTwoSep. cbn [String.eqb].
    destruct (Ascii.eqb ch "&"), (Ascii.eqb ch2 "&"), (Ascii.eqb ch "|"), (Ascii.eqb ch2 "|");
      first [discriminate | reflexivity].
Qed.

(** C3. An input without any of the separators [&&], [||], [|], [;] is
    split into the empty sequence when it is blank and into the single
    element holding the trimmed input otherwise; [a;;b] is split into
    fragment [a], two separators [;] and fragment [b], nothing collapsed;
    and where [&&] or [||] starts the rest of the input it is emitted as one
    two-character separator, before the one-character separators are
    looked at. *)
Theorem C3_split_without_separators_and_adjacent_separators :
  (forall s : string, containsSeparator s = false ->
     (isBlank s = true -> splitPipelines s = [])
     /\ (isBlank s = false -> splitPipelines s = [Js.trim s]))
  /\ splitPipelines "a;;b" = ["a"; ";"; ";"; "b"]
  /\ List.map classify (splitPipelines "a;;b")
     = [Fragment "a"; Separator ";"; Separator ";"; Fragment "b"]
  /\ (forall buf rest : string,
        splitLoop buf ("&&" ++ rest) = (flush buf ++ "&&" :: splitLoop EmptyString rest)%list
        /\ splitLoop buf ("||" ++ rest) = (flush buf ++ "||" :: splitLoop EmptyString rest)%list)
  /\ splitPipelines "a||b" = ["a"; "||"; "b"].
Proof.
  split; [|repeat split; reflexivity].
  intros s H. unfold splitPipelines. rewrite splitLoop_plain by assumption.
  cbn [append]. split; intros Hb; [by apply flush_blank | by apply flush_not_blank].
Qed.

Lemma C3_witness :
  containsSeparator "  ls -la " = false
  /\ splitPipelines "  ls -la " = ["ls -la"]
  /\ splitPipelines "   " = [].
Proof.
  split; [reflexivity|].
  destruct (proj1 C3_split_without_separators_and_adjacent_separators "  ls -la " eq_refl)
    as [_ H1].
  destruct (proj1 C3_split_without_separators_and_adjacent_separators "   " eq_refl)
    as [H2 _].
  split; [exact (H1 eq_refl) | exact (H2 eq_refl)].
Defined.

(** ** Per-segment translator *)

Lemma spanNonSpace_append (s : string) :
  fst (spanNonSpace s) ++ snd (spanNonSpace s) = s.
Proof.
  induction s as [|c s IH]; [reflexivity|]. cbn.
  destruct (Js.isSpace c); [reflexivity|].
  destruct (spanNonSpace s) as [h t]. cbn in *. by rewrite append_cons, IH.
Qed.

Lemma spanNonSpace_head (s : string) :
  allUnits (fun c => negb (Js.isSpace c)) (fst (spanNonSpace s)) = true.
Proof.
  induction s as [|c s IH]; [reflexivity|]. cbn.
  destruct (Js.isSpace c) eqn:Hc; [reflexivity|].
  destruct (spanNonSpace s) as [h t]. cbn in *. by rewrite Hc, IH.
Qed.

Lemma spanNonSpace_tail (s : string) :
  match snd (spanNonSpace s) with
  | EmptyString => True
  | String c _ => Js.isSpace c = true
  end.
Proof.
  induction s as [|c s IH]; [exact I|]. cbn.
  destruct (Js.isSpace c) eqn:Hc; [exact Hc|].
  by destruct (spanNonSpace s) as [h t].
Qed.

Lemma matchHeadTail_Some (seg head tail : string) :
  matchHeadTail seg = Some (head, tail) ->
  seg = head ++ tail
  /\ Js.truthy head = true
  /\ allUnits (fun c => negb (Js.isSpace c)) head = true
  /\ match tail with EmptyString => True | String c _ => Js.isSpace c = true end.
Proof.
  unfold matchHeadTail. intros H.
  pose proof (spanNonSpace_append seg) as Happ.
  pose proof (spanNonSpace_head seg) as Hhead.
  pose proof (spanNonSpace_tail seg) as Htail.
  destruct (spanNonSpace seg) as [h t]. cbn in *.
  destruct (Js.truthy h) eqn:Hh; [|discriminate].
  injection H as <- <-. by rewrite Happ.
Qed.

Lemma matchHeadTail_None (seg : string) :
  matchHeadTail seg = None ->
  match seg with EmptyString => True | String c _ => Js.isSpace c = true end.
Proof.
  destruct seg as [|c s]; [done|]. unfold matchHeadTail. cbn.
  destruct (Js.isSpace c); [done|]. by destruct (spanNonSpace s).
Qed.

Lemma scanKeys_directMatch (head : string) (os : OS) (tbl : list (string * OsEntry)) :
  scanKeys (Js.toLowerCase head) head os tbl
  = (fun kv => default head (forOS (snd kv) os)) <$> directMatch head tbl.
Proof.
  induction tbl as [|[key e] rest IH]; [reflexivity|].
  cbn. unfold matchesHead. cbn.
  destruct (String.eqb (Js.toLowerCase head) (Js.toLowerCase key)); [reflexivity | exact IH].
Qed.

Lemma stripRf_prefixed (s : string) :
  Js.startsWith s "-rf" = true -> stripRf s = Js.trimStart (Js.dropUnits 3 s).
Proof. intros H. unfold stripRf. by rewrite H. Qed.

(** What translateSingle returns once the head matched no key and the
    recursive-delete rule is off, or the replacement is not empty. *)
Lemma translateSingle_plain (seg : string) (os : OS) (map : CommandMap) (head tail : string) :
  matchHeadTail seg = Some (head, tail) ->
  let replacement := scanKeys (Js.toLowerCase head) head os (base map) in
  falsy replacement && rmRuleApplies head tail os map = false ->
  translateSingle seg os map = Js.trim (default head replacement ++ tail).
Proof.
  intros Hm replacement Hoff. unfold translateSingle. rewrite Hm. cbn zeta.
  fold replacement. unfold rmRuleApplies, reservedFor in Hoff.
  destruct (falsy replacement); [|reflexivity]. cbn [andb] in *.
  destruct (String.eqb (Js.toLowerCase head) "rm" && Js.startsWith (Js.trim tail) "-rf");
    [|reflexivity].
  cbn [andb] in *.
  destruct (getEntry "rm -rf" (base map) ≫= (fun e => forOS e os)) as [mapped|];
    [|reflexivity].
  cbn in Hoff. destruct (Js.truthy mapped); [discriminate Hoff | reflexivity].
Qed.

Lemma length_trimStart (s : string) : String.length (Js.trimStart s) <= String.length s.
Proof.
  induction s as [|c s IH]; [done|]. cbn.
  destruct (Js.isSpace c); cbn; lia.
Qed.

Lemma length_trimEnd (s : string) : String.length (Js.trimEnd s) <= String.length s.
Proof.
  induction s as [|c s IH]; [done|]. cbn.
  destruct (Js.trimEnd s); [destruct (Js.isSpace c)|]; cbn in *; lia.
Qed.

Lemma isFragment_spec (seg : string) :
  isFragment seg = true -> Js.truthy seg = true /\ Js.trim seg = seg.
Proof.
  unfold isFragment. intros [H1 H2]%andb_true_iff. by apply String.eqb_eq in H2.
Qed.

(** A fragment begins with a code unit that is not whitespace, so the
    regular expression of translateSingle matches it. *)
Lemma fragment_has_head (seg : string) :
  isFragment seg = true -> exists head tail, matchHeadTail seg = Some (head, tail).
Proof.
  intros [Hne Htrim]%isFragment_spec.
  destruct seg as [|c r]; [discriminate|].
  destruct (Js.isSpace c) eqn:Hc.
  - exfalso. apply (f_equal String.length) in Htrim.
    unfold Js.trim in Htrim. cbn [Js.trimStart] in Htrim. rewrite Hc in Htrim.
    pose proof (length_trimEnd (Js.trimStart r)). pose proof (length_trimStart r).
    cbn [String.length] in Htrim. lia.
  - unfold matchHeadTail. cbn [spanNonSpace]. rewrite Hc.
    destruct (spanNonSpace r) as [h t]. cbn. eauto.
Qed.

Lemma trimEnd_cons (c : ascii) (s : string) :
  Js.trimEnd (String c s)
  = match Js.trimEnd s with
    | EmptyString => if Js.isSpace c then EmptyString else String c EmptyString
    | r => String c r
    end.
Proof. reflexivity. Qed.

Lemma trimEnd_idempotent (s : string) : Js.trimEnd (Js.trimEnd s) = Js.trimEnd s.
Proof.
  induction s as [|c s IH]; [reflexivity|]. rewrite trimEnd_cons.
  destruct (Js.trimEnd s) as [|d r] eqn:Hs.
  - destruct (Js.isSpace c) eqn:Hc; [reflexivity|]. cbn. by rewrite Hc.
  - by rewrite trimEnd_cons, IH.
Qed.

Lemma trimStart_fixed (c : ascii) (r : string) :
  Js.isSpace c = false -> Js.trimStart (String c r) = String c r.
Proof. intros Hc. cbn. by rewrite Hc. Qed.

Lemma trimEnd_head (c : ascii) (r : string) :
  Js.isSpace c = false -> exists r', Js.trimEnd (String c r) = String c r'.
Proof.
  intros Hc. cbn. destruct (Js.trimEnd r); [rewrite Hc|]; eauto.
Qed.

Lemma trim_idempotent (s : string) : Js.trim (Js.trim s) = Js.trim s.
Proof.
  unfold Js.trim. destruct (isBlank s) eqn:Hb.
  - by rewrite (trimStart_blank s Hb).
  - destruct (trimStart_not_blank s Hb) as (c & r & -> & Hc).
    destruct (trimEnd_head c r Hc) as [r' Hr']. rewrite Hr'.
    rewrite (trimStart_fixed c r' Hc), <- Hr'. apply trimEnd_idempotent.
Qed.

(** What the splitter flushes is a fragment. *)
Lemma flush_fragments (buf x : string) : In x (flush buf) -> isFragment x = true.
Proof.
  unfold flush. destruct (Js.truthy (Js.trim buf)) eqn:Hne; [|done].
  intros [<- | []]. unfold isFragment. rewrite Hne, trim_idempotent.
  by rewrite String.eqb_refl.
Qed.

(** Every element of the split sequence is one of the four separators or a
    fragment, so translateCommandForOS hands translateSingle fragments
    only. *)
Lemma splitLoop_elements_bounded (n : nat) :
  forall (s buf x : string),
    String.length s <= n ->
    In x (splitLoop buf s) -> isSeparator x = true \/ isFragment x = true.
Proof.
  induction n as [|n IH]; intros s buf x Hlen.
  - destruct s; [|cbn in Hlen; lia]. right. by apply (flush_fragments buf).
  - destruct s as [|ch s']; [right; by apply (flush_fragments buf)|].
    cbn [String.length] in Hlen.
    assert (Hsingle : In x
        (if Ascii.eqb ch "|" then (flush buf ++ "|" :: splitLoop EmptyString s')%list
         else if Ascii.eqb ch ";" then (flush buf ++ ";" :: splitLoop EmptyString s')%list
         else splitLoop (buf ++ String ch EmptyString) s') ->
      isSeparator x = true \/ isFragment x = true).
    { destruct (Ascii.eqb ch "|"); [|destruct (Ascii.eqb ch ";")].
      - intros [Hx | [<- | Hx]]%in_app_or;
          [right; by apply (flush_fragments buf) | by left
          | apply (IH s' EmptyString); [lia | done]].
      - intros [Hx | [<- | Hx]]%in_app_or;
          [right; by apply (flush_fragments buf) | by left
          | apply (IH s' EmptyString); [lia | done]].
      - apply IH. lia. }
    cbn [splitLoop]. destruct s' as [|ch2 rest]; [exact Hsingle|].
    destruct (isTwoSep (String ch (String ch2 EmptyString))) eqn:Htwo; [|exact Hsingle].
    intros [Hx | [<- | Hx]]%in_app_or.
    + right. by apply (flush_fragments buf).
    + left. unfold isTwoSep in Htwo. unfold isSeparator, separators. cbn [existsb].
      apply orb_true_iff in Htwo as [Htwo | Htwo]; rewrite Htwo;
        by rewrite ?orb_true_r.
    + apply (IH rest EmptyString); [cbn [String.length] in Hlen; lia | done].
Qed.

Lemma splitPipelines_elements (cmd x : string) :
  In x (splitPipelines cmd) -> isSeparator x = true \/ isFragment x = true.
Proof. by apply (splitLoop_elements_bounded (String.length cmd)). Qed.

(** C1 (amended). When the head of a segment matches no base key up to
    case, is [rm] up to case, the trimmed tail begins with [-rf] and the
    reserved compound key has a non-empty replacement for the OS,
    translateSingle returns that replacement, a space, and the trimmed tail
    without its leading [-rf] and the whitespace after it, the whole
    trimmed.  With the reserved key mapped to [rmdir /s /q] on Windows,
    [rm -rf build] becomes [rmdir /s /q build]. *)
Theorem C1_recursive_delete_rule :
  (forall (seg : string) (os : OS) (map : CommandMap) (head tail mapped : string),
     matchHeadTail seg = Some (head, tail) ->
     directMatch head (base map) = None ->
     Js.toLowerCase head = "rm" ->
     Js.startsWith (Js.trim tail) "-rf" = true ->
     reservedFor os map = Some mapped ->
     Js.truthy mapped = true ->
     translateSingle seg os map
     = Js.trim (mapped ++ " " ++ Js.trimStart (Js.dropUnits 3 (Js.trim tail))))
  /\ (forall (map : CommandMap) (e : OsEntry),
        directMatch "rm" (base map) = None ->
        getEntry "rm -rf" (base map) = Some e ->
        onWindows e = Some "rmdir /s /q" ->
        translateSingle "rm -rf build" windows map = "rmdir /s /q build").
Proof.
  assert (General : forall seg os map head tail mapped,
     matchHeadTail seg = Some (head, tail) ->
     directMatch head (base map) = None ->
     Js.toLowerCase head = "rm" ->
     Js.startsWith (Js.trim tail) "-rf" = true ->
     reservedFor os map = Some mapped ->
     Js.truthy mapped = true ->
     translateSingle seg os map
     = Js.trim (mapped ++ " " ++ Js.trimStart (Js.dropUnits 3 (Js.trim tail)))).
  { intros seg os map head tail mapped Hm Hnone Hrm Hrf Hres Hne.
    unfold translateSingle. rewrite Hm. cbn zeta.
    rewrite scanKeys_directMatch, Hnone. cbn [fmap option_fmap option_map falsy andb].
    rewrite Hrm, Hrf. cbn [String.eqb andb].
    unfold reservedFor in Hres. rewrite Hres, Hne.
    by rewrite stripRf_prefixed. }
  split; [exact General|].
  intros map e Hnone He Hwin.
  rewrite (General "rm -rf build" windows map "rm" " -rf build" "rmdir /s /q");
    try reflexivity; try assumption.
  unfold reservedFor. rewrite He. exact Hwin.
Qed.

Lemma C1_witness :
  matchHeadTail "rm   -rf  build dir" = Some ("rm", "   -rf  build dir")
  /\ translateSingle "rm   -rf  build dir" windows sampleMap = "rmdir /s /q build dir"
  /\ translateSingle "rm -rf build" windows sampleMap = "rmdir /s /q build".
Proof.
  split; [reflexivity|]. split.
  - exact (proj1 C1_recursive_delete_rule "rm   -rf  build dir" windows sampleMap
             "rm" "   -rf  build dir" "rmdir /s /q"
             eq_refl eq_refl eq_refl eq_refl eq_refl eq_refl).
  - exact (proj2 C1_recursive_delete_rule sampleMap
             (MkOsEntry (Some "rmdir /s /q") None None) eq_refl eq_refl eq_refl).
Defined.

(** C1 fails as stated: the reserved compound key has a replacement for
    Windows, the empty string, the head [rm] matches no base key and the
    tail begins with [-rf], yet the segment comes back unchanged instead of
    the replacement followed by the stripped tail. *)
Lemma C1_counterexample :
  matchHeadTail "rm -rf build" = Some ("rm", " -rf build")
  /\ directMatch "rm" (base emptyReservedMap) = None
  /\ Js.toLowerCase "rm" = "rm"
  /\ Js.startsWith (Js.trim " -rf build") "-rf" = true
  /\ reservedFor windows emptyReservedMap = Some EmptyString
  /\ translateSingle "rm -rf build" windows emptyReservedMap = "rm -rf build"
  /\ translateSingle "rm -rf build" windows emptyReservedMap
     <> Js.trim (EmptyString ++ " " ++ Js.trimStart (Js.dropUnits 3 (Js.trim " -rf build"))).
Proof. repeat split; try reflexivity. vm_compute. discriminate. Qed.





(** ** Command resolver *)


Lemma loadCommandKeys_missing (fallback : CommandKeys) (w : World) :
  projectCommandsFile w = None ->
  loadCommandKeys fallback w
  = (fallback, MkWorld (platform w) (commandMapFile w) (Some fallback) (probes w)
                       (written w ++ [WroteProjectCommands fallback]) (spawned w)).
Proof. intros H. unfold loadCommandKeys. by rewrite H. Qed.

Lemma resolveProjectCommand_fst (projectName key : string) (w : World) :
  fst (resolveProjectCommand projectName key w)
  = resolveIn (loaded seedCommandKeys (projectCommandsFile w)) projectName key.
Proof.
  unfold resolveProjectCommand, mbind, Host_bind, loadCommandKeys, resolveIn, loaded.
  by destruct (projectCommandsFile w).
Qed.









(** ** Execution orchestrator *)

Section Orchestrator.

Variable spawn : string -> ChildExit.

Lemma loadCommandMap_keeps (fallback : CommandMap) (w : World) :
  fst (loadCommandMap fallback w) = loaded fallback (commandMapFile w)
  /\ platform (snd (loadCommandMap fallback w)) = platform w
  /\ projectCommandsFile (snd (loadCommandMap fallback w)) = projectCommandsFile w
  /\ probes (snd (loadCommandMap fallback w)) = probes w
  /\ spawned (snd (loadCommandMap fallback w)) = spawned w.
Proof. unfold loadCommandMap. by destruct (commandMapFile w). Qed.

Lemma loadCommandKeys_keeps (fallback : CommandKeys) (w : World) :
  fst (loadCommandKeys fallback w) = loaded fallback (projectCommandsFile w)
  /\ platform (snd (loadCommandKeys fallback w)) = platform w
  /\ commandMapFile (snd (loadCommandKeys fallback w)) = commandMapFile w
  /\ probes (snd (loadCommandKeys fallback w)) = probes w
  /\ spawned (snd (loadCommandKeys fallback w)) = spawned w.
Proof. unfold loadCommandKeys. by destruct (projectCommandsFile w). Qed.

(** The request up to the point where the resolved command is tested:
    nothing has been run, and the resolver saw the stored table. *)
Lemma executeCommand_not_found (projectName commandKey : string)
    (args : option (list string)) (w : World) :
  falsy (resolveIn (loaded seedCommandKeys (projectCommandsFile w)) projectName commandKey)
  = true ->
  fst (executeCommand spawn projectName commandKey args w)
  = MkPayload (Some "COMMAND_NOT_FOUND") (Some (notFoundMessage commandKey))
              None None None None None
  /\ spawned (snd (executeCommand spawn projectName commandKey args w)) = spawned w.
Proof.
  intros Hfalsy.
  unfold executeCommand, mbind, Host_bind, getOS, detectProjectFlavor.
  destruct (loadCommandMap_keeps (MkCommandMap []) w) as (_ & _ & Hkeys & _ & Hrun).
  destruct (loadCommandMap (MkCommandMap []) w) as [cmdMap w1]. cbn [fst snd] in *.
  pose proof (resolveProjectCommand_fst projectName commandKey w1) as Hres.
  assert (Hrun2 : spawned (snd (resolveProjectCommand projectName commandKey w1)) = spawned w1).
  { unfold resolveProjectCommand, mbind, Host_bind.
    destruct (loadCommandKeys_keeps seedCommandKeys w1) as (_ & _ & _ & _ & H).
    by destruct (loadCommandKeys seedCommandKeys w1). }
  destruct (resolveProjectCommand projectName commandKey w1) as [projectCmd w2].
  cbn [fst snd] in *. rewrite Hkeys in Hres. rewrite Hres, Hfalsy.
  split; [reflexivity|]. cbn. congruence.
Qed.

Lemma resolveProjectCommand_keeps (projectName key : string) (w : World) :
  platform (snd (resolveProjectCommand projectName key w)) = platform w
  /\ commandMapFile (snd (resolveProjectCommand projectName key w)) = commandMapFile w
  /\ probes (snd (resolveProjectCommand projectName key w)) = probes w
  /\ spawned (snd (resolveProjectCommand projectName key w)) = spawned w.
Proof.
  unfold resolveProjectCommand, mbind, Host_bind.
  destruct (loadCommandKeys_keeps seedCommandKeys w) as (_ & ? & ? & ? & ?).
  by destruct (loadCommandKeys seedCommandKeys w).
Qed.

(** The request once the resolved command is a non-empty string: it is
    translated, the arguments are appended, the line is run once, and the
    payload is built from what the child reported. *)
Lemma executeCommand_run (projectName commandKey : string)
    (args : option (list string)) (w : World) (cmd : string) :
  resolveIn (loaded seedCommandKeys (projectCommandsFile w)) projectName commandKey
  = Some cmd ->
  Js.truthy cmd = true ->
  let cmdMap := loaded (MkCommandMap []) (commandMapFile w) in
  let full := commandLine (translateCommandForOS cmd (hostOS w) cmdMap) args in
  let child := spawn full in
  let code := default 0%Z (childCode child) in
  fst (executeCommand spawn projectName commandKey args w)
  = (if negb (code =? 0)%Z
     then MkPayload (Some "COMMAND_FAILED") (Some (failedMessage code))
                    (buildSuggestion cmd (childStderr child) (hostFlavor w)
                                     (Some commandKey))
                    (Some full) (Some (childStdout child)) (Some (childStderr child))
                    (Some code)
     else MkPayload None None None (Some full) (Some (childStdout child))
                    (Some (childStderr child)) (Some code))
  /\ spawned (snd (executeCommand spawn projectName commandKey args w))
     = (spawned w ++ [full])%list.
Proof.
  intros Hres Hcmd cmdMap full child code.
  unfold executeCommand, mbind, Host_bind, getOS, detectProjectFlavor.
  destruct (loadCommandMap_keeps (MkCommandMap []) w) as (Hmap & Hos & Hkeys & Hpr & Hrun).
  destruct (loadCommandMap (MkCommandMap []) w) as [cmdMap' w1]. cbn [fst snd] in *.
  pose proof (resolveProjectCommand_fst projectName commandKey w1) as Hfst.
  destruct (resolveProjectCommand_keeps projectName commandKey w1) as (_ & _ & Hpr2 & Hrun2).
  destruct (resolveProjectCommand projectName commandKey w1) as [projectCmd w2].
  cbn [fst snd] in *. rewrite Hkeys, Hres in Hfst. subst projectCmd cmdMap'.
  cbn [falsy]. rewrite Hcmd. cbn [negb default from_option id].
  unfold runShell. cbn [exitCode stderr stdout].
  subst code child full cmdMap.
  unfold hostOS, hostFlavor, getOS, detectProjectFlavor. cbn [fst].
  rewrite Hpr2, Hpr.
  match goal with |- context [negb ?b] => destruct (negb b) end;
    cbn; split; congruence.
Qed.

End Orchestrator.



Lemma quoteArg_truthy (a : string) : Js.truthy (quoteArg a) = true.
Proof.
  unfold quoteArg. destruct (isBareToken a) eqn:Hbare; [|reflexivity].
  unfold isBareToken in Hbare. by apply andb_true_iff in Hbare as [? _].
Qed.




(** ** Suggestion engine *)

Lemma isWordChar_lowerUnit (c : ascii) : Js.isWordChar (Js.lowerUnit c) = Js.isWordChar c.
Proof. destruct c as [[] [] [] [] [] [] [] []]; vm_compute; reflexivity. Qed.

Lemma wordBefore_lower (prev : option ascii) :
  Js.wordBefore (Js.lowerUnit <$> prev) = Js.wordBefore prev.
Proof. destruct prev as [c|]; [apply isWordChar_lowerUnit | reflexivity]. Qed.

Lemma wordAhead_lower (s : string) : Js.wordAhead (Js.toLowerCase s) = Js.wordAhead s.
Proof. destruct s as [|c s]; [reflexivity | apply isWordChar_lowerUnit]. Qed.

Lemma boundary_lower (prev : option ascii) (s : string) :
  Js.boundary (Js.lowerUnit <$> prev) (Js.toLowerCase s) = Js.boundary prev s.
Proof. unfold Js.boundary. by rewrite wordBefore_lower, wordAhead_lower. Qed.

Lemma dropUnits_lower (n : nat) (s : string) :
  Js.dropUnits n (Js.toLowerCase s) = Js.toLowerCase (Js.dropUnits n s).
Proof.
  revert s. induction n as [|n IH]; intros [|c s]; try reflexivity. cbn. apply IH.
Qed.

Lemma wordBefore_lastUnit_lower (lit : string) (prev : option ascii) :
  Js.wordBefore (Js.lastUnit (Js.lowerUnit <$> prev) lit)
  = Js.wordBefore (Js.lastUnit prev lit).
Proof. destruct lit as [|c lit]; [apply wordBefore_lower | reflexivity]. Qed.

(** A lower-case literal that starts a string also starts the lowered
    string. *)
Lemma startsWith_lower (lit s : string) :
  Js.toLowerCase lit = lit ->
  Js.startsWith s lit = true -> Js.startsWith (Js.toLowerCase s) lit = true.
Proof.
  revert s. induction lit as [|p lit IH]; intros s Hlit H; [reflexivity|].
  destruct s as [|c s]; [discriminate|]. cbn in *.
  injection Hlit as Hp Hlit.
  apply andb_true_iff in H as [Hc Hs]. apply Ascii.eqb_eq in Hc. subst c.
  rewrite Hp, Ascii.eqb_refl. by apply IH.
Qed.

Lemma wordAt_lower (lit : string) (prev : option ascii) (s : string) :
  Js.toLowerCase lit = lit ->
  Js.wordAt lit prev s = true ->
  Js.wordAt lit (Js.lowerUnit <$> prev) (Js.toLowerCase s) = true.
Proof.
  intros Hlit. unfold Js.wordAt.
  intros [[Hb Hs]%andb_true_iff He]%andb_true_iff.
  rewrite boundary_lower, Hb, (startsWith_lower lit s Hlit Hs). cbn [andb].
  rewrite dropUnits_lower. unfold Js.boundary in *.
  by rewrite wordBefore_lastUnit_lower, wordAhead_lower.
Qed.

(** A whole-word occurrence of a lower-case literal in a string is also
    one in the lowered string. *)
Lemma testWordFrom_lower (lit : string) (s : string) :
  Js.toLowerCase lit = lit ->
  forall prev : option ascii,
    Js.testWordFrom lit (Js.lowerUnit <$> prev) (Js.toLowerCase s) = false ->
    Js.testWordFrom lit prev s = false.
Proof.
  intros Hlit. induction s as [|c s IH]; intros prev H.
  - cbn in *. rewrite orb_false_r in *.
    destruct (Js.wordAt lit prev EmptyString) eqn:Hat; [|reflexivity].
    apply (wordAt_lower lit prev EmptyString Hlit) in Hat. cbn in Hat. congruence.
  - cbn [Js.testWordFrom Js.toLowerCase] in *.
    apply orb_false_elim in H as [Hat Hrest].
    apply orb_false_intro.
    + destruct (Js.wordAt lit prev (String c s)) eqn:Hat'; [|reflexivity].
      apply (wordAt_lower lit prev (String c s) Hlit) in Hat'.
      cbn [Js.toLowerCase] in Hat'. congruence.
    + apply (IH (Some c)). exact Hrest.
Qed.

(** Where the pattern has no match, the replacement returns its input. *)
Lemma replaceWordFrom_no_match (lit rep : string) (s : string) :
  forall prev : option ascii,
    Js.testWordFrom lit prev s = false ->
    Js.replaceWordFrom lit rep 0 prev s = s.
Proof.
  induction s as [|c s IH]; intros prev H; [reflexivity|].
  cbn [Js.testWordFrom] in H. apply orb_false_elim in H as [Hat Hrest].
  cbn [Js.replaceWordFrom]. rewrite Hat. by rewrite IH.
Qed.

Lemma replaceWord_no_match (lit rep cmd : string) :
  Js.toLowerCase lit = lit ->
  Js.testWord lit (Js.toLowerCase cmd) = false ->
  Js.replaceWord lit rep cmd = cmd.
Proof.
  intros Hlit H. unfold Js.replaceWord. apply replaceWordFrom_no_match.
  by apply (testWordFrom_lower lit cmd Hlit None).
Qed.

(** C7. The suggestion does not depend on the stderr argument, so two
    calls with the same command, flavor set and key return the same
    suggestion or both none; and with all five flavors false no suggestion
    is produced, whatever the command and the key. *)
Theorem C7_suggestion_determinism :
  (forall (cmd stderr1 stderr2 : string) (flavor : Flavor) (key : option string),
     buildSuggestion cmd stderr1 flavor key = buildSuggestion cmd stderr2 flavor key)
  /\ (forall (cmd stderr : string) (key : option string),
        buildSuggestion cmd stderr (MkFlavor false false false false false) key = None).
Proof.
  split; [reflexivity|].
  intros cmd stderr key. unfold buildSuggestion. cbn.
  by destruct (Js.includes (Js.toLowerCase cmd) "npm "),
              (Js.testWord "pip" (Js.toLowerCase cmd)).
Qed.

(** C10. A command whose lowered text contains [npm ] but no whole-word
    occurrence of [npm run], with bun false, yarn true and a key other than
    [install], gets itself back as the suggestion: the replacement of the
    yarn branch finds nothing to replace. *)
Theorem C10_suggestion_repeats_command :
  forall (cmd stderr : string) (flavor : Flavor) (key : option string),
    Js.includes (Js.toLowerCase cmd) "npm " = true ->
    Js.testWord "npm run" (Js.toLowerCase cmd) = false ->
    bun flavor = false ->
    yarn flavor = true ->
    keyIs key "install" = false ->
    buildSuggestion cmd stderr flavor key = Some cmd.
Proof.
  intros cmd stderr flavor key Hnpm Hrun Hbun Hyarn Hkey.
  unfold buildSuggestion. cbn zeta. rewrite Hnpm, Hbun, Hyarn, Hkey.
  by rewrite replaceWord_no_match.
Qed.

Lemma C10_witness :
  Js.includes (Js.toLowerCase "npm test") "npm " = true
  /\ Js.testWord "npm run" (Js.toLowerCase "npm test") = false
  /\ buildSuggestion "npm test" "sh: jest: not found" yarnOnly (Some "test")
     = Some "npm test".
Proof.
  split; [reflexivity|]. split; [reflexivity|].
  exact (C10_suggestion_repeats_command "npm test" "sh: jest: not found" yarnOnly
           (Some "test") eq_refl eq_refl eq_refl eq_refl eq_refl).
Defined.

(** C6 (amended). On the lowered command the rules are tried in order and
    the first that applies gives the suggestion.  When it contains [npm ]:
    with bun, [bun install] for key [install], [bun run dev] for key [run],
    otherwise the command with every whole-word [npm] replaced by [bun];
    else with yarn, [yarn install] for key [install], otherwise the command
    with every whole-word [npm run] replaced by [yarn]; else with pnpm,
    [pnpm install] for key [install], otherwise [npm run] replaced by
    [pnpm run].  When none of these applies, which includes a command that
    mentions npm while bun, yarn and pnpm are all false, and the lowered
    command contains [pip] as a whole word: [poetry install] with poetry,
    else [pipenv install] with pipenv.  Otherwise there is no suggestion. *)
Theorem C6_suggestion_policy :
  forall (cmd stderr : string) (flavor : Flavor) (key : option string),
    let lc := Js.toLowerCase cmd in
    (Js.includes lc "npm " = true -> bun flavor = true ->
       buildSuggestion cmd stderr flavor key
       = Some (if keyIs key "install" then "bun install"
               else if keyIs key "run" then "bun run dev"
               else Js.replaceWord "npm" "bun" cmd))
    /\ (Js.includes lc "npm " = true -> bun flavor = false -> yarn flavor = true ->
        buildSuggestion cmd stderr flavor key
        = Some (if keyIs key "install" then "yarn install"
                else Js.replaceWord "npm run" "yarn" cmd))
    /\ (Js.includes lc "npm " = true -> bun flavor = false -> yarn flavor = false ->
        pnpm flavor = true ->
        buildSuggestion cmd stderr flavor key
        = Some (if keyIs key "install" then "pnpm install"
                else Js.replaceWord "npm run" "pnpm run" cmd))
    /\ (Js.includes lc "npm " = false
        \/ (bun flavor = false /\ yarn flavor = false /\ pnpm flavor = false) ->
        (Js.testWord "pip" lc = true -> poetry flavor = true ->
           buildSuggestion cmd stderr flavor key = Some "poetry install")
        /\ (Js.testWord "pip" lc = true -> poetry flavor = false ->
            pipenv flavor = true ->
            buildSuggestion cmd stderr flavor key = Some "pipenv install")
        /\ (Js.testWord "pip" lc = false
            \/ (poetry flavor = false /\ pipenv flavor = false) ->
            buildSuggestion cmd stderr flavor key = None)).
Proof.
  intros cmd stderr flavor key lc. unfold buildSuggestion. fold lc.
  split; [|split; [|split]].
  - intros -> ->. by destruct (keyIs key "install"), (keyIs key "run").
  - intros -> -> ->. by destruct (keyIs key "install").
  - intros -> -> -> ->. by destruct (keyIs key "install").
  - intros Hpast.
    assert (Hrest : forall r : option string,
      (if Js.testWord "pip" lc
       then if poetry flavor then Some "poetry install"
            else if pipenv flavor then Some "pipenv install" else None
       else None) = r ->
      buildSuggestion cmd stderr flavor key = r).
    { intros r <-. unfold buildSuggestion. fold lc.
      destruct Hpast as [-> | (-> & -> & ->)]; [reflexivity|].
      by destruct (Js.includes lc "npm "). }
    unfold buildSuggestion in Hrest. fold lc in Hrest.
    split; [|split].
    + intros Hpip Hpoetry. apply Hrest. by rewrite Hpip, Hpoetry.
    + intros Hpip Hpoetry Hpipenv. apply Hrest. by rewrite Hpip, Hpoetry, Hpipenv.
    + intros Hnone. apply Hrest.
      destruct Hnone as [-> | [-> ->]]; [reflexivity|].
      by destruct (Js.testWord "pip" lc).
Qed.

Lemma C6_witness :
  buildSuggestion "npm ci" EmptyString (MkFlavor true true true true true) (Some "install")
  = Some "bun install"
  /\ buildSuggestion "npm run build && npm-check npm" EmptyString
       (MkFlavor true true false false false) (Some "build")
     = Some "bun run build && bun-check bun"
  /\ buildSuggestion "npm run build" EmptyString yarnOnly (Some "build") = Some "yarn build"
  /\ buildSuggestion "npm run build" EmptyString (MkFlavor false false true true true)
       (Some "build")
     = Some "pnpm run build"
  /\ buildSuggestion "npm i pip" EmptyString poetryOnly (Some "install")
     = Some "poetry install"
  /\ buildSuggestion "pip install x" EmptyString (MkFlavor true true true false true) None
     = Some "pipenv install"
  /\ buildSuggestion "pipx install x" EmptyString poetryOnly None = None.
Proof.
  pose proof (C6_suggestion_policy "npm ci" EmptyString (MkFlavor true true true true true)
                (Some "install")) as (H1 & _).
  pose proof (C6_suggestion_policy "npm run build && npm-check npm" EmptyString
                (MkFlavor true true false false false) (Some "build")) as (H2 & _).
  pose proof (C6_suggestion_policy "npm run build" EmptyString yarnOnly (Some "build"))
    as (_ & H3 & _).
  pose proof (C6_suggestion_policy "npm run build" EmptyString
                (MkFlavor false false true true true) (Some "build")) as (_ & _ & H4 & _).
  pose proof (C6_suggestion_policy "npm i pip" EmptyString poetryOnly (Some "install"))
    as (_ & _ & _ & H5).
  pose proof (C6_suggestion_policy "pip install x" EmptyString
                (MkFlavor true true true false true) None) as (_ & _ & _ & H6).
  pose proof (C6_suggestion_policy "pipx install x" EmptyString poetryOnly None)
    as (_ & _ & _ & H7).
  split; [exact (H1 eq_refl eq_refl)|].
  split; [exact (H2 eq_refl eq_refl)|].
  split; [exact (H3 eq_refl eq_refl eq_refl)|].
  split; [exact (H4 eq_refl eq_refl eq_refl eq_refl)|].
  split; [exact (proj1 (H5 (or_intror (conj eq_refl (conj eq_refl eq_refl))))
                   eq_refl eq_refl)|].
  split; [exact (proj1 (proj2 (H6 (or_introl eq_refl))) eq_refl eq_refl eq_refl)|].
  exact (proj2 (proj2 (H7 (or_introl eq_refl))) (or_introl eq_refl)).
Defined.

(** C6 fails as stated: the command mentions npm, so the npm rule is the
    first that matches and, with bun, yarn and pnpm false, it has nothing
    to offer; the claim then gives no suggestion, but buildSuggestion goes
    on to the pip rule and answers [poetry install]. *)
Lemma C6_counterexample :
  Js.includes (Js.toLowerCase "npm install && pip install -r requirements.txt") "npm "
  = true
  /\ documentedSuggestion "npm install && pip install -r requirements.txt" poetryOnly
       (Some "install") = None
  /\ buildSuggestion "npm install && pip install -r requirements.txt" EmptyString
       poetryOnly (Some "install") = Some "poetry install"
  /\ buildSuggestion "npm install && pip install -r requirements.txt" EmptyString
       poetryOnly (Some "install")
     <> documentedSuggestion "npm install && pip install -r requirements.txt" poetryOnly
          (Some "install").
Proof. repeat split; try reflexivity. vm_compute. discriminate. Qed.

(** * Further properties of the pipeline *)

(** ** Segment splitter: what the sequence is made of *)

Lemma containsSeparator_empty : containsSeparator EmptyString = false.
Proof. reflexivity. Qed.

Lemma containsSeparator_cons_intro (c : ascii) (s : string) :
  containsSeparator s = false ->
  Ascii.eqb c "|" = false -> Ascii.eqb c ";" = false ->
  Js.startsWith (String c s) "&&" = false ->
  containsSeparator (String c s) = false.
Proof.
  unfold containsSeparator, separators. cbn [existsb]. rewrite !includes_cons.
  intros H Hbar Hsemi Hand.
  apply orb_false_elim in H as [H1 H]. apply orb_false_elim in H as [H2 H].
  apply orb_false_elim in H as [H3 H]. apply orb_false_elim in H as [H4 _].
  rewrite H1, H2, H3, H4, Hand. cbn [Js.startsWith]. by rewrite Hbar, Hsemi.
Qed.

(** Appending a code unit to a separator-free buffer keeps it
    separator-free, unless the unit is a separator itself or completes
    [&&]. *)
Lemma containsSeparator_snoc (buf : string) (ch : ascii) :
  containsSeparator buf = false ->
  Ascii.eqb ch "|" = false -> Ascii.eqb ch ";" = false ->
  (Js.lastUnit None buf = Some "&"%char -> Ascii.eqb ch "&" = false) ->
  containsSeparator (buf ++ String ch EmptyString) = false.
Proof.
  intros Hbuf Hbar Hsemi. induction buf as [|c b IH]; intros Hlast.
  - apply containsSeparator_cons_intro; try done.
    cbn [Js.startsWith]. by rewrite andb_false_r.
  - apply containsSeparator_cons in Hbuf as (Hb & Hc1 & Hc2 & Hand & _).
    rewrite append_cons. apply containsSeparator_cons_intro; try done.
    + apply IH; [done|]. destruct b as [|d b']; [discriminate|].
      intros Hl. apply Hlast. exact Hl.
    + destruct b as [|d b'].
      * change (EmptyString ++ String ch EmptyString) with (String ch EmptyString).
        cbn [Js.startsWith]. rewrite andb_true_r.
        destruct (Ascii.eqb c "&") eqn:Hc; [|reflexivity].
        apply Ascii.eqb_eq in Hc. subst c. cbn [andb]. by apply Hlast.
      * exact Hand.
Qed.

Lemma containsSeparator_trimStart (s : string) :
  containsSeparator s = false -> containsSeparator (Js.trimStart s) = false.
Proof.
  induction s as [|c s IH]; [done|]. intros H. cbn [Js.trimStart].
  destruct (Js.isSpace c); [|exact H].
  apply IH. by apply containsSeparator_cons in H as (? & _).
Qed.

Lemma trimEnd_first (s : string) (d : ascii) (r : string) :
  Js.trimEnd s = String d r -> exists s', s = String d s'.
Proof.
  destruct s as [|c s]; [discriminate|]. rewrite trimEnd_cons.
  destruct (Js.trimEnd s); [destruct (Js.isSpace c)|]; intros [= <- _]; eauto.
Qed.

Lemma containsSeparator_trimEnd (s : string) :
  containsSeparator s = false -> containsSeparator (Js.trimEnd s) = false.
Proof.
  induction s as [|c s IH]; [done|]. intros H.
  apply containsSeparator_cons in H as (Hs & Hbar & Hsemi & Hand & _).
  rewrite trimEnd_cons. specialize (IH Hs).
  destruct (Js.trimEnd s) as [|d r] eqn:Hr.
  - destruct (Js.isSpace c); [reflexivity|].
    apply containsSeparator_cons_intro; try done.
    cbn [Js.startsWith]. by rewrite andb_false_r.
  - apply containsSeparator_cons_intro; try done.
    destruct (trimEnd_first s d r Hr) as [s' ->].
    cbn [Js.startsWith] in *. exact Hand.
Qed.

Lemma containsSeparator_trim (s : string) :
  containsSeparator s = false -> containsSeparator (Js.trim s) = false.
Proof.
  intros H. unfold Js.trim. by apply containsSeparator_trimEnd, containsSeparator_trimStart.
Qed.

Lemma isSeparator_spec (x : string) :
  isSeparator x = true -> x = "&&" \/ x = "||" \/ x = "|" \/ x = ";".
Proof.
  unfold isSeparator, separators. cbn [existsb]. rewrite !orb_true_iff, !String.eqb_eq.
  intros [H | [H | [H | [H | H]]]]; [tauto | tauto | tauto | tauto | discriminate H].
Qed.

Lemma isSeparator_contains (x : string) :
  isSeparator x = true -> containsSeparator x = true.
Proof. intros [-> | [-> | [-> | ->]]]%isSeparator_spec; reflexivity. Qed.

Lemma flush_plain (buf x : string) :
  containsSeparator buf = false -> In x (flush buf) ->
  isFragment x = true /\ containsSeparator x = false.
Proof.
  intros Hbuf Hx. split; [by apply (flush_fragments buf)|].
  unfold flush in Hx. destruct (Js.truthy (Js.trim buf)); [|done].
  destruct Hx as [<- | []]. by apply containsSeparator_trim.
Qed.

Lemma splitLoop_classified (n : nat) :
  forall (s buf x : string),
    String.length s <= n ->
    containsSeparator buf = false ->
    (Js.lastUnit None buf = Some "&"%char -> Js.startsWith s "&" = false) ->
    In x (splitLoop buf s) ->
    isSeparator x = true \/ (isFragment x = true /\ containsSeparator x = false).
Proof.
  induction n as [|n IH]; intros s buf x Hlen Hbuf Hlast.
  - destruct s; [|cbn in Hlen; lia]. right. by apply (flush_plain buf).
  - destruct s as [|ch s']; [right; by apply (flush_plain buf)|].
    cbn [String.length] in Hlen.
    assert (Hfresh : forall t, String.length t <= n -> In x (splitLoop EmptyString t) ->
      isSeparator x = true \/ (isFragment x = true /\ containsSeparator x = false)).
    { intros t Ht. by apply IH. }
    assert (Hsingle : (s' = EmptyString \/ exists ch2 rest, s' = String ch2 rest
                         /\ isTwoSep (String ch (String ch2 EmptyString)) = false) ->
      In x
        (if Ascii.eqb ch "|" then (flush buf ++ "|" :: splitLoop EmptyString s')%list
         else if Ascii.eqb ch ";" then (flush buf ++ ";" :: splitLoop EmptyString s')%list
         else splitLoop (buf ++ String ch EmptyString) s') ->
      isSeparator x = true \/ (isFragment x = true /\ containsSeparator x = false)).
    { intros Hnext.
      destruct (Ascii.eqb ch "|") eqn:Hbar; [|destruct (Ascii.eqb ch ";") eqn:Hsemi].
      - intros [Hx | [<- | Hx]]%in_app_or;
          [right; by apply (flush_plain buf) | by left | apply (Hfresh s'); [lia | done]].
      - intros [Hx | [<- | Hx]]%in_app_or;
          [right; by apply (flush_plain buf) | by left | apply (Hfresh s'); [lia | done]].
      - apply IH; [lia | |].
        + apply containsSeparator_snoc; try done.
          intros Hamp. specialize (Hlast Hamp). cbn [Js.startsWith] in Hlast.
          by rewrite andb_true_r in Hlast.
        + intros Hamp.
          assert (Hch : ch = "&"%char).
          { clear -Hamp. induction buf as [|b buf IHb]; [by injection Hamp|].
            apply IHb. rewrite append_cons in Hamp.
            destruct buf; exact Hamp. }
          subst ch. destruct Hnext as [-> | (ch2 & rest & -> & Htwo)]; [reflexivity|].
          cbn [Js.startsWith]. rewrite andb_true_r.
          unfold isTwoSep in Htwo. cbn [String.eqb] in Htwo.
          destruct (Ascii.eqb ch2 "&") eqn:E; [|reflexivity].
          apply Ascii.eqb_eq in E. subst ch2. discriminate Htwo. }
    cbn [splitLoop]. destruct s' as [|ch2 rest]; [apply Hsingle; by left|].
    destruct (isTwoSep (String ch (String ch2 EmptyString))) eqn:Htwo;
      [|apply Hsingle; right; eauto].
    intros [Hx | [<- | Hx]]%in_app_or.
    + right. by apply (flush_plain buf).
    + left. unfold isTwoSep in Htwo. unfold isSeparator, separators. cbn [existsb].
      apply orb_true_iff in Htwo as [Htwo | Htwo]; rewrite Htwo;
        by rewrite ?orb_true_r.
    + apply (Hfresh rest); [cbn [String.length] in Hlen; lia | done].
Qed.

(** X1. Every element of the sequence splitPipelines returns is either one
    of the four separators or a fragment that is non-empty, equal to its own
    trimming and free of separators; so no empty element is ever pushed, and
    the separator test of translateCommandForOS never mistakes a fragment
    for a separator. *)
Theorem splitPipelines_classified (cmd x : string) :
  In x (splitPipelines cmd) ->
  isSeparator x = true
  \/ (isSeparator x = false /\ isFragment x = true /\ containsSeparator x = false).
Proof.
  intros Hx.
  destruct (splitLoop_classified (String.length cmd) cmd EmptyString x) as [Hs | [Hf Hc]];
    [lia | reflexivity | discriminate | exact Hx | by left |].
  right. split; [|done]. destruct (isSeparator x) eqn:Hs; [|reflexivity].
  apply isSeparator_contains in Hs. congruence.
Qed.

Lemma splitPipelines_classified_witness :
  In "b&c" (splitPipelines "a|||b&c&&&d")
  /\ isSeparator "b&c" = false /\ isFragment "b&c" = true.
Proof.
  assert (Hin : In "b&c" (splitPipelines "a|||b&c&&&d")).
  { vm_compute. tauto. }
  split; [exact Hin|].
  destruct (splitPipelines_classified "a|||b&c&&&d" "b&c" Hin) as [Hs | (Hs & Hf & _)];
    [discriminate Hs | by split].
Defined.

(** ** Segment splitter and translator: composition *)

Lemma isTwoSep_safe (ch ch2 : ascii) :
  Ascii.eqb ch2 "&" = false -> Ascii.eqb ch2 "|" = false ->
  isTwoSep (String ch (String ch2 EmptyString)) = false.
Proof.
  intros H1 H2. unfold isTwoSep. cbn [String.eqb]. rewrite H1, H2.
  by destruct (Ascii.eqb ch "&"), (Ascii.eqb ch "|").
Qed.

Lemma startsWith_single (r : string) (p : ascii) :
  Js.startsWith r (String p EmptyString)
  = match r with String c _ => Ascii.eqb c p | EmptyString => false end.
Proof. destruct r as [|c r]; [reflexivity|]. cbn. by rewrite andb_true_r. Qed.

(** Scanning a prefix: if what follows does not begin with [&] or [|], the
    loop over the prefix pushes the same elements and ends in the same
    buffer whatever follows. *)
Lemma splitLoop_prefix (n : nat) :
  forall (a buf : string), String.length a <= n ->
    exists (parts : list string) (buf' : string),
      forall r : string,
        Js.startsWith r "&" = false -> Js.startsWith r "|" = false ->
        splitLoop buf (a ++ r) = (parts ++ splitLoop buf' r)%list.
Proof.
  induction n as [|n IH]; intros a buf Hlen.
  - destruct a; [|cbn in Hlen; lia]. by exists [], buf.
  - destruct a as [|ch a']; [by exists [], buf|]. cbn [String.length] in Hlen.
    assert (Hsingle : exists parts buf', forall r,
      Js.startsWith r "&" = false -> Js.startsWith r "|" = false ->
      (if Ascii.eqb ch "|" then (flush buf ++ "|" :: splitLoop EmptyString (a' ++ r))%list
       else if Ascii.eqb ch ";" then (flush buf ++ ";" :: splitLoop EmptyString (a' ++ r))%list
       else splitLoop (buf ++ String ch EmptyString) (a' ++ r))
      = (parts ++ splitLoop buf' r)%list).
    { destruct (Ascii.eqb ch "|"); [|destruct (Ascii.eqb ch ";")].
      - destruct (IH a' EmptyString) as (parts & buf' & H); [lia|].
        exists (flush buf ++ "|" :: parts)%list, buf'. intros r Hr1 Hr2.
        by rewrite (H r Hr1 Hr2), <- app_assoc.
      - destruct (IH a' EmptyString) as (parts & buf' & H); [lia|].
        exists (flush buf ++ ";" :: parts)%list, buf'. intros r Hr1 Hr2.
        by rewrite (H r Hr1 Hr2), <- app_assoc.
      - destruct (IH a' (buf ++ String ch EmptyString)) as (parts & buf' & H); [lia|].
        by exists parts, buf'. }
    destruct a' as [|ch2 rest].
    + destruct Hsingle as (parts & buf' & H). exists parts, buf'. intros r Hr1 Hr2.
      rewrite <- (H r Hr1 Hr2). rewrite append_cons.
      change (EmptyString ++ r) with r. cbn [splitLoop].
      destruct r as [|c r']; [reflexivity|].
      rewrite startsWith_single in Hr1, Hr2. by rewrite isTwoSep_safe.
    + destruct (isTwoSep (String ch (String ch2 EmptyString))) eqn:Htwo.
      * destruct (IH rest EmptyString) as (parts & buf' & H);
          [cbn [String.length] in Hlen; lia|].
        exists (flush buf ++ String ch (String ch2 EmptyString) :: parts)%list, buf'.
        intros r Hr1 Hr2. rewrite !append_cons. cbn [splitLoop]. rewrite Htwo.
        by rewrite (H r Hr1 Hr2), <- app_assoc.
      * destruct Hsingle as (parts & buf' & H). exists parts, buf'. intros r Hr1 Hr2.
        rewrite <- (H r Hr1 Hr2). rewrite !append_cons. cbn [splitLoop].
        by rewrite Htwo.
Qed.

Lemma trimEnd_snoc_space (s : string) (sp : ascii) :
  Js.isSpace sp = true -> Js.trimEnd (s ++ String sp EmptyString) = Js.trimEnd s.
Proof.
  intros Hsp. induction s as [|c s IH].
  - change (EmptyString ++ String sp EmptyString) with (String sp EmptyString).
    cbn. by rewrite Hsp.
  - by rewrite append_cons, !trimEnd_cons, IH.
Qed.

Lemma trim_snoc_space (s : string) (sp : ascii) :
  Js.isSpace sp = true -> Js.trim (s ++ String sp EmptyString) = Js.trim s.
Proof.
  intros Hsp. unfold Js.trim. induction s as [|c s IH].
  - change (EmptyString ++ String sp EmptyString) with (String sp EmptyString).
    cbn. by rewrite Hsp.
  - rewrite append_cons. cbn [Js.trimStart]. destruct (Js.isSpace c); [exact IH|].
    rewrite <- append_cons. by apply trimEnd_snoc_space.
Qed.

Lemma flush_snoc_space (buf : string) (sp : ascii) :
  Js.isSpace sp = true -> flush (buf ++ String sp EmptyString) = flush buf.
Proof. intros Hsp. unfold flush. by rewrite trim_snoc_space. Qed.

Lemma flush_cons_space (buf : string) (sp : ascii) :
  Js.isSpace sp = true -> flush (String sp buf) = flush buf.
Proof. intros Hsp. unfold flush, Js.trim. cbn [Js.trimStart]. by rewrite Hsp. Qed.

(** Whitespace at the start of the buffer does not change what the loop
    pushes. *)
Lemma splitLoop_leading_space (sp : ascii) (n : nat) :
  Js.isSpace sp = true ->
  forall (s buf : string), String.length s <= n ->
    splitLoop (String sp buf) s = splitLoop buf s.
Proof.
  intros Hsp. induction n as [|n IH]; intros s buf Hlen.
  - destruct s; [|cbn in Hlen; lia]. cbn. by apply flush_cons_space.
  - destruct s as [|ch s']; [cbn; by apply flush_cons_space|].
    cbn [String.length] in Hlen. cbn [splitLoop].
    rewrite (flush_cons_space buf sp Hsp), append_cons.
    rewrite (IH s' (buf ++ String ch EmptyString)) by lia. reflexivity.
Qed.

Lemma splitLoop_after_space (b : string) :
  splitLoop EmptyString (String " " b) = splitLoop EmptyString b.
Proof.
  assert (H : splitLoop EmptyString (String " " b) = splitLoop (String " " EmptyString) b).
  { cbn [splitLoop]. destruct b as [|c b']; reflexivity. }
  rewrite H. by apply (splitLoop_leading_space " " (String.length b)).
Qed.

Lemma splitLoop_space_separator (buf sep b : string) :
  isSeparator sep = true ->
  splitLoop buf (" " ++ sep ++ " " ++ b)
  = (flush buf ++ sep :: splitLoop EmptyString b)%list.
Proof.
  intros Hsep.
  assert (Hstep : forall t : string,
    splitLoop (buf ++ " ") (sep ++ String " " t)
    = (flush buf ++ sep :: splitLoop EmptyString (String " " t))%list).
  { intros t. rewrite <- (flush_snoc_space buf " " eq_refl).
    destruct (isSeparator_spec sep Hsep) as [-> | [-> | [-> | ->]]]; reflexivity. }
  change (" " ++ sep ++ " " ++ b) with (String " " (sep ++ String " " b)).
  rewrite <- splitLoop_after_space, <- Hstep.
  destruct (isSeparator_spec sep Hsep) as [-> | [-> | [-> | ->]]]; reflexivity.
Qed.

Lemma splitPipelines_around (sep a b : string) :
  isSeparator sep = true ->
  splitPipelines (a ++ " " ++ sep ++ " " ++ b)
  = (splitPipelines a ++ sep :: splitPipelines b)%list.
Proof.
  intros Hsep. unfold splitPipelines.
  destruct (splitLoop_prefix (String.length a) a EmptyString) as (parts & buf' & H); [lia|].
  assert (Hsafe : forall t, Js.startsWith (" " ++ t) "&" = false
                            /\ Js.startsWith (" " ++ t) "|" = false) by done.
  assert (Ha : splitLoop EmptyString a = (parts ++ splitLoop buf' EmptyString)%list)
    by (rewrite <- (H EmptyString) by done; by rewrite append_empty_r).
  rewrite (H (" " ++ sep ++ " " ++ b)) by apply Hsafe.
  rewrite Ha, splitLoop_space_separator by done. cbn [splitLoop].
  by rewrite <- app_assoc.
Qed.

Lemma isBlank_snoc (buf : string) (c : ascii) :
  isBlank (buf ++ String c EmptyString) = isBlank buf && Js.isSpace c.
Proof.
  induction buf as [|b buf IH].
  - change (EmptyString ++ String c EmptyString) with (String c EmptyString).
    cbn. by rewrite andb_true_r.
  - rewrite append_cons. cbn [isBlank allUnits] in *. unfold isBlank in IH.
    by rewrite IH, andb_assoc.
Qed.

(** A command that is not blank is never split into the empty sequence. *)
Lemma splitLoop_nonempty (n : nat) :
  forall (s buf : string), String.length s <= n ->
    isBlank buf && isBlank s = false -> splitLoop buf s <> [].
Proof.
  induction n as [|n IH]; intros s buf Hlen Hnb.
  - destruct s; [|cbn in Hlen; lia]. cbn. rewrite andb_true_r in Hnb.
    by rewrite flush_not_blank.
  - destruct s as [|ch s'].
    { cbn. rewrite andb_true_r in Hnb. by rewrite flush_not_blank. }
    cbn [String.length] in Hlen.
    assert (Hsingle :
      (if Ascii.eqb ch "|" then (flush buf ++ "|" :: splitLoop EmptyString s')%list
       else if Ascii.eqb ch ";" then (flush buf ++ ";" :: splitLoop EmptyString s')%list
       else splitLoop (buf ++ String ch EmptyString) s') <> []).
    { destruct (Ascii.eqb ch "|"); [|destruct (Ascii.eqb ch ";")].
      - intros H. by apply app_eq_nil in H as [_ ?].
      - intros H. by apply app_eq_nil in H as [_ ?].
      - apply IH; [lia|]. rewrite isBlank_snoc, <- andb_assoc. exact Hnb. }
    cbn [splitLoop]. destruct s' as [|ch2 rest]; [exact Hsingle|].
    destruct (isTwoSep (String ch (String ch2 EmptyString))); [|exact Hsingle].
    intros H. by apply app_eq_nil in H as [_ ?].
Qed.

Lemma splitPipelines_nonempty (cmd : string) :
  isBlank cmd = false -> splitPipelines cmd <> [].
Proof. intros H. by apply (splitLoop_nonempty (String.length cmd)). Qed.

Lemma append_assoc' (s t u : string) : (s ++ t) ++ u = s ++ (t ++ u).
Proof.
  induction s as [|c s IH]; [reflexivity|]. by rewrite !append_cons, IH.
Qed.

Lemma join_cons (sep x : string) (l : list string) :
  l <> [] -> Js.join sep (x :: l) = x ++ sep ++ Js.join sep l.
Proof. by destruct l. Qed.

Lemma join_app (sep : string) (l1 l2 : list string) :
  l1 <> [] -> l2 <> [] ->
  Js.join sep (l1 ++ l2) = Js.join sep l1 ++ sep ++ Js.join sep l2.
Proof.
  intros H1 H2. induction l1 as [|x l1 IH]; [done|].
  destruct l1 as [|y l1].
  - cbn [app]. by rewrite join_cons.
  - rewrite <- app_comm_cons, join_cons by done.
    rewrite IH by done. rewrite (join_cons sep x (y :: l1)) by done.
    by rewrite !append_assoc'.
Qed.

(** X2. Two commands joined by a separator with a space on either side are
    split separately: the sequence is the sequence of the first, the
    separator, and the sequence of the second.  If neither command is blank,
    the translation of the whole is the translation of the first, the
    separator between single spaces, and the translation of the second. *)
Theorem translate_around_separator :
  forall (sep a b : string) (os : OS) (map : CommandMap),
    isSeparator sep = true ->
    splitPipelines (a ++ " " ++ sep ++ " " ++ b)
    = (splitPipelines a ++ sep :: splitPipelines b)%list
    /\ (isBlank a = false -> isBlank b = false ->
        translateCommandForOS (a ++ " " ++ sep ++ " " ++ b) os map
        = translateCommandForOS a os map ++ " " ++ sep ++ " "
          ++ translateCommandForOS b os map).
Proof.
  intros sep a b os map Hsep. split; [by apply splitPipelines_around|].
  intros Ha Hb. unfold translateCommandForOS.
  rewrite splitPipelines_around by done. rewrite List.map_app. cbn [List.map].
  rewrite Hsep.
  apply splitPipelines_nonempty in Ha, Hb.
  rewrite join_app, join_cons; [reflexivity | | | done].
  - by destruct (splitPipelines b).
  - by destruct (splitPipelines a).
Qed.

Lemma translate_around_separator_witness :
  splitPipelines ("ls -la" ++ " " ++ "&&" ++ " " ++ "rm -rf build")
  = ["ls -la"; "&&"; "rm -rf build"]
  /\ translateCommandForOS ("ls -la" ++ " " ++ "&&" ++ " " ++ "rm -rf build")
       windows sampleMap
     = "dir -la && rmdir /s /q build".
Proof.
  destruct (translate_around_separator "&&" "ls -la" "rm -rf build" windows sampleMap
              eq_refl) as [Hsplit Htr].
  split; [exact Hsplit | exact (Htr eq_refl eq_refl)].
Defined.

Lemma scanKeys_no_values (lowerHead head : string) (os : OS) (tbl : list (string * OsEntry)) :
  forallb (fun kv => match forOS (snd kv) os with None => true | Some _ => false end) tbl
  = true ->
  scanKeys lowerHead head os tbl = None \/ scanKeys lowerHead head os tbl = Some head.
Proof.
  induction tbl as [|[key e] rest IH]; [by left|]. cbn.
  destruct (forOS e os) eqn:He; [discriminate|]. cbn. intros Hrest.
  destruct (String.eqb lowerHead (Js.toLowerCase key)); [by right | by apply IH].
Qed.

Lemma getEntry_no_values (name : string) (os : OS) (tbl : list (string * OsEntry)) :
  forallb (fun kv => match forOS (snd kv) os with None => true | Some _ => false end) tbl
  = true ->
  getEntry name tbl ≫= (fun e => forOS e os) = None.
Proof.
  induction tbl as [|[key e] rest IH]; [done|]. cbn.
  destruct (forOS e os) eqn:He; [discriminate|]. cbn. intros Hrest.
  destruct (String.eqb key name); [exact He | by apply IH].
Qed.

Lemma translateSingle_no_values (seg : string) (os : OS) (map : CommandMap) :
  noValuesFor os map = true -> isFragment seg = true ->
  translateSingle seg os map = seg.
Proof.
  intros Hno Hfrag. destruct (fragment_has_head seg Hfrag) as (head & tail & Hm).
  destruct (matchHeadTail_Some seg head tail Hm) as (Hseg & Hhead & _).
  apply isFragment_spec in Hfrag as [_ Htrim].
  rewrite (translateSingle_plain seg os map head tail Hm).
  - destruct (scanKeys_no_values (Js.toLowerCase head) head os (base map) Hno) as [-> | ->];
      cbn; by rewrite <- Hseg.
  - unfold rmRuleApplies, reservedFor.
    rewrite (getEntry_no_values "rm -rf" os (base map) Hno). cbn.
    by rewrite !andb_false_r.
Qed.

(** X3. On an OS for which no entry of the table has a value, and so with
    an empty table, translation changes no fragment: the result is the
    split sequence joined by single spaces. *)
Theorem translate_without_values :
  forall (raw : string) (os : OS) (map : CommandMap),
    noValuesFor os map = true ->
    translateCommandForOS raw os map = Js.join " " (splitPipelines raw).
Proof.
  intros raw os map Hno. unfold translateCommandForOS. f_equal.
  rewrite <- (List.map_id (splitPipelines raw)) at 2.
  apply List.map_ext_in. intros x Hx.
  destruct (splitPipelines_classified raw x Hx) as [-> | (-> & Hfrag & _)]; [done|].
  by apply translateSingle_no_values.
Qed.

Lemma translate_without_values_witness :
  noValuesFor linux windowsOnlyMap = true
  /\ translateCommandForOS "  ls   -la&&rm -rf  build ;" linux windowsOnlyMap
     = "ls   -la && rm -rf  build ;".
Proof.
  split; [reflexivity|].
  exact (translate_without_values "  ls   -la&&rm -rf  build ;" linux windowsOnlyMap eq_refl).
Defined.

(** X4. A command without any separator is translated as one segment, its
    trimming; a blank command is translated to the empty string. *)
Theorem translate_single_segment :
  forall (raw : string) (os : OS) (map : CommandMap),
    containsSeparator raw = false ->
    (isBlank raw = false ->
     translateCommandForOS raw os map = translateSingle (Js.trim raw) os map)
    /\ (isBlank raw = true -> translateCommandForOS raw os map = EmptyString).
Proof.
  intros raw os map Hplain. unfold translateCommandForOS, splitPipelines.
  rewrite splitLoop_plain by done. change (EmptyString ++ raw) with raw.
  split; intros Hb.
  - rewrite flush_not_blank by done. cbn [List.map Js.join].
    destruct (isSeparator (Js.trim raw)) eqn:Hsep; [|reflexivity].
    apply isSeparator_contains in Hsep.
    by rewrite containsSeparator_trim in Hsep.
  - by rewrite flush_blank.
Qed.

Lemma translate_single_segment_witness :
  containsSeparator "  LS -la " = false
  /\ translateCommandForOS "  LS -la " windows sampleMap = "dir -la"
  /\ translateCommandForOS "   " windows sampleMap = EmptyString.
Proof.
  split; [reflexivity|].
  destruct (translate_single_segment "  LS -la " windows sampleMap eq_refl) as [H1 _].
  destruct (translate_single_segment "   " windows sampleMap eq_refl) as [_ H2].
  split; [exact (H1 eq_refl) | exact (H2 eq_refl)].
Defined.

(** ** Command resolver: merged view, upsert, delete and seeding *)


Lemma getMergedCommands_fst (projectName : string) (w : World) :
  fst (getMergedCommands projectName w)
  = let t := loaded emptyCommandKeys (projectCommandsFile w) in
    default ∅ (t !! projectName) ∪ default ∅ (t !! "default").
Proof.
  unfold getMergedCommands, mbind, Host_bind, loadCommandKeys, loaded.
  by destruct (projectCommandsFile w).
Qed.

Lemma getMergedCommands_file (projectName : string) (w : World) :
  projectCommandsFile (snd (getMergedCommands projectName w))
  = Some (loaded emptyCommandKeys (projectCommandsFile w)).
Proof.
  unfold getMergedCommands, mbind, Host_bind, loadCommandKeys, loaded.
  destruct (projectCommandsFile w) eqn:Hfile; cbn; [exact Hfile | reflexivity].
Qed.






(** X6. What a missing command-key document is seeded with depends on the
    operation that meets it first.  The resolver seeds [default.install] and
    [default.run], so every project resolves [install] to [npm install];
    getMergedCommands and removeProjectCommand seed an empty [default], the
    merged view is empty, and a resolution after them finds no [install]
    at all. *)
Theorem seeding_depends_on_first_operation :
  forall (w : World) (projectName other key : string),
    projectCommandsFile w = None ->
    fst (resolveProjectCommand projectName "install" w) = Some "npm install"
    /\ fst (resolveProjectCommand projectName "run" w) = Some "npm start"
    /\ projectCommandsFile (snd (resolveProjectCommand projectName key w))
       = Some seedCommandKeys
    /\ fst (getMergedCommands other w) = ∅
    /\ fst (resolveProjectCommand projectName "install" (snd (getMergedCommands other w)))
       = None
    /\ fst (resolveProjectCommand projectName "install"
              (snd (removeProjectCommand other key w))) = None.
Proof.
  intros w projectName other key Hfile.
  assert (Hseed : forall k, resolveIn seedCommandKeys projectName k
                            = subLookup seedCommandKeys "default" k).
  { intros k. unfold resolveIn.
    destruct (decide (projectName = "default")) as [-> | Hne];
      [by destruct (subLookup seedCommandKeys "default" k)|].
    unfold subLookup at 1. unfold seedCommandKeys at 1.
    by rewrite lookup_singleton_ne. }
  assert (Hempty : forall q k, subLookup emptyCommandKeys q k = None).
  { intros q k. unfold subLookup, emptyCommandKeys.
    destruct (decide (q = "default")) as [-> | Hne];
      [by rewrite lookup_singleton_eq | by rewrite lookup_singleton_ne]. }
  assert (Hremoved : projectCommandsFile (snd (removeProjectCommand other key w))
                     = Some emptyCommandKeys).
  { unfold removeProjectCommand, mbind, Host_bind.
    rewrite loadCommandKeys_missing by done. unfold emptyCommandKeys.
    destruct (decide (other = "default")) as [-> | Hne].
    - rewrite lookup_singleton_eq. cbn. by rewrite delete_empty, insert_singleton_eq.
    - by rewrite lookup_singleton_ne. }
  repeat split.
  - rewrite resolveProjectCommand_fst, Hfile. apply Hseed.
  - rewrite resolveProjectCommand_fst, Hfile. apply Hseed.
  - unfold resolveProjectCommand, mbind, Host_bind.
    by rewrite loadCommandKeys_missing.
  - rewrite getMergedCommands_fst, Hfile. cbn.
    apply map_eq. intros k. rewrite lookup_union, lookup_empty.
    pose proof (Hempty other k) as H1. pose proof (Hempty "default" k) as H2.
    unfold subLookup in H1, H2.
    destruct (emptyCommandKeys !! other), (emptyCommandKeys !! "default"); cbn in *;
      rewrite ?H1, ?H2, ?lookup_empty; reflexivity.
  - rewrite resolveProjectCommand_fst, getMergedCommands_file, Hfile.
    unfold resolveIn. cbn. by rewrite !Hempty.
  - rewrite resolveProjectCommand_fst, Hremoved. unfold resolveIn. cbn.
    by rewrite !Hempty.
Qed.

Lemma seeding_depends_on_first_operation_witness :
  fst (resolveProjectCommand "web" "install" freshWorld) = Some "npm install"
  /\ fst (resolveProjectCommand "web" "install" (snd (getMergedCommands "web" freshWorld)))
     = None.
Proof.
  destruct (seeding_depends_on_first_operation freshWorld "web" "web" "install" eq_refl)
    as (H1 & _ & _ & _ & H2 & _).
  split; [exact H1 | exact H2].
Defined.











(** ** Execution orchestrator: errors, edge cases and effects *)

Section OrchestratorEffects.

Variable spawn : string -> ChildExit.

Lemma loadCommandMap_store (fallback : CommandMap) (w : World) :
  let w' := snd (loadCommandMap fallback w) in
  written w'
  = (written w
     ++ match commandMapFile w with None => [WroteCommandMap fallback] | Some _ => [] end)%list
  /\ commandMapFile w' = Some (loaded fallback (commandMapFile w))
  /\ projectCommandsFile w' = projectCommandsFile w.
Proof.
  unfold loadCommandMap, loaded.
  destruct (commandMapFile w) eqn:Hmap; cbn; [|done].
  by rewrite app_nil_r.
Qed.

Lemma resolveProjectCommand_store (projectName key : string) (w : World) :
  let w' := snd (resolveProjectCommand projectName key w) in
  written w'
  = (written w
     ++ match projectCommandsFile w with
        | None => [WroteProjectCommands seedCommandKeys]
        | Some _ => []
        end)%list
  /\ commandMapFile w' = commandMapFile w
  /\ projectCommandsFile w' = Some (loaded seedCommandKeys (projectCommandsFile w)).
Proof.
  unfold resolveProjectCommand, mbind, Host_bind, loadCommandKeys, loaded.
  destruct (projectCommandsFile w) eqn:Hkeys; cbn; [|done].
  by rewrite app_nil_r.
Qed.

Lemma executeCommand_store (projectName commandKey : string)
    (args : option (list string)) (w : World) :
  let w' := snd (executeCommand spawn projectName commandKey args w) in
  written w'
  = (written w
     ++ match commandMapFile w with
        | None => [WroteCommandMap (MkCommandMap [])]
        | Some _ => []
        end
     ++ match projectCommandsFile w with
        | None => [WroteProjectCommands seedCommandKeys]
        | Some _ => []
        end)%list
  /\ commandMapFile w' = Some (loaded (MkCommandMap []) (commandMapFile w))
  /\ projectCommandsFile w' = Some (loaded seedCommandKeys (projectCommandsFile w)).
Proof.
  cbn zeta. unfold executeCommand, mbind, Host_bind, getOS, detectProjectFlavor.
  destruct (loadCommandMap_store (MkCommandMap []) w) as (Hw1 & Hm1 & Hk1).
  cbn zeta in Hw1, Hm1, Hk1.
  destruct (loadCommandMap (MkCommandMap []) w) as [cmdMap w1]. cbn [fst snd] in *.
  destruct (resolveProjectCommand_store projectName commandKey w1) as (Hw2 & Hm2 & Hk2).
  cbn zeta in Hw2, Hm2, Hk2.
  destruct (resolveProjectCommand projectName commandKey w1) as [projectCmd w2].
  cbn [fst snd] in *.
  rewrite Hk1 in Hw2, Hk2. rewrite Hw1, <- app_assoc in Hw2. rewrite Hm1 in Hm2.
  destruct (falsy projectCmd); [by cbn|].
  unfold runShell.
  match goal with |- context [negb ?b] => destruct (negb b) end; by cbn.
Qed.

End OrchestratorEffects.





(** X13. executeCommand writes to the configuration only to seed a missing
    document: what it writes is the empty command map if that document was
    missing, then the seeded command-key table if that one was, and nothing
    else; with both documents present nothing is written and both are left
    as they were.  At most one command line is handed to the shell. *)
Theorem execute_only_seeds :
  forall (spawn : string -> ChildExit) (w : World)
         (projectName commandKey : string) (args : option (list string)),
    let w' := snd (executeCommand spawn projectName commandKey args w) in
    written w'
    = (written w
       ++ match commandMapFile w with
          | None => [WroteCommandMap (MkCommandMap [])]
          | Some _ => []
          end
       ++ match projectCommandsFile w with
          | None => [WroteProjectCommands seedCommandKeys]
          | Some _ => []
          end)%list
    /\ (forall (m : CommandMap) (t : CommandKeys),
          commandMapFile w = Some m -> projectCommandsFile w = Some t ->
          written w' = written w
          /\ commandMapFile w' = Some m /\ projectCommandsFile w' = Some t)
    /\ (spawned w' = spawned w \/ exists line : string, spawned w' = (spawned w ++ [line])%list).
Proof.
  intros spawn w projectName commandKey args w'.
  destruct (executeCommand_store spawn projectName commandKey args w)
    as (Hwritten & Hmap & Hkeys).
  fold w' in Hwritten, Hmap, Hkeys.
  split; [exact Hwritten|]. split.
  - intros m t Hm Ht. rewrite Hm, Ht in *. rewrite Hwritten, Hmap, Hkeys.
    by rewrite !app_nil_r.
  - destruct (falsy (resolveIn (loaded seedCommandKeys (projectCommandsFile w))
                       projectName commandKey)) eqn:Hfalsy.
    + left. by apply (executeCommand_not_found spawn).
    + right. unfold falsy in Hfalsy.
      destruct (resolveIn (loaded seedCommandKeys (projectCommandsFile w))
                  projectName commandKey) as [cmd|] eqn:Hres; [|discriminate].
      apply negb_false_iff in Hfalsy.
      destruct (executeCommand_run spawn projectName commandKey args w cmd Hres Hfalsy)
        as [_ Hspawned].
      eauto.
Qed.

Lemma execute_only_seeds_witness :
  written (snd (executeCommand quietShell "p" "install" None sampleWorld)) = []
  /\ written (snd (executeCommand quietShell "p" "install" None freshWorld))
     = [WroteCommandMap (MkCommandMap []); WroteProjectCommands seedCommandKeys].
Proof.
  destruct (execute_only_seeds quietShell sampleWorld "p" "install" None)
    as (_ & Hpresent & _).
  destruct (Hpresent sampleMap sampleKeys eq_refl eq_refl) as (Hnone & _).
  destruct (execute_only_seeds quietShell freshWorld "p" "install" None) as (Hseed & _).
  split; [exact Hnone | exact Hseed].
Defined.






(** ** Argument quoting *)

Lemma escapeQuotes_first (a : string) (r : string) :
  escapeQuotes a <> String dquote r.
Proof.
  destruct a as [|c a]; [discriminate|]. cbn [escapeQuotes].
  destruct (Ascii.eqb c dquote) eqn:Hc; [discriminate|].
  intros [= -> _]. by rewrite Ascii.eqb_refl in Hc.
Qed.

Lemma escapeQuotes_inj (a b : string) : escapeQuotes a = escapeQuotes b -> a = b.
Proof.
  revert b. induction a as [|c a IH]; intros [|d b]; cbn [escapeQuotes].
  - done.
  - by destruct (Ascii.eqb d dquote).
  - by destruct (Ascii.eqb c dquote).
  - destruct (Ascii.eqb c dquote) eqn:Hc, (Ascii.eqb d dquote) eqn:Hd.
    + apply Ascii.eqb_eq in Hc, Hd. subst c d. intros [= H]. by rewrite (IH b H).
    + intros [= _ H]. symmetry in H. by apply escapeQuotes_first in H.
    + intros [= _ H]. by apply escapeQuotes_first in H.
    + intros [= -> H]. by rewrite (IH b H).
Qed.

Lemma append_snoc_inj (s t : string) (c : ascii) :
  s ++ String c EmptyString = t ++ String c EmptyString -> s = t.
Proof.
  revert t. induction s as [|x s IH]; intros [|y t]; rewrite ?append_cons.
  - done.
  - change (EmptyString ++ String c EmptyString) with (String c EmptyString).
    intros [= _ H]. by destruct t.
  - change (EmptyString ++ String c EmptyString) with (String c EmptyString).
    intros [= _ H]. by destruct s.
  - intros [= -> H]. by rewrite (IH t H).
Qed.

Lemma bare_not_quoted (a r : string) : isBareToken a = true -> a <> String dquote r.
Proof.
  intros Hbare ->. unfold isBareToken in Hbare. cbn in Hbare. discriminate Hbare.
Qed.

(** X15. quoteArg is injective: two different arguments never yield the
    same text on the command line, and the result is never the empty
    string, so no argument vanishes from the line. *)
Theorem quoteArg_injective :
  (forall a b : string, quoteArg a = quoteArg b -> a = b)
  /\ (forall a : string, Js.truthy (quoteArg a) = true).
Proof.
  split; [|apply quoteArg_truthy].
  intros a b. unfold quoteArg.
  destruct (isBareToken a) eqn:Ha, (isBareToken b) eqn:Hb.
  - done.
  - intros H. by apply bare_not_quoted in H.
  - intros H. symmetry in H. by apply bare_not_quoted in H.
  - intros [= H]. by apply append_snoc_inj, escapeQuotes_inj in H.
Qed.

Lemma quoteArg_injective_witness :
  quoteArg "a b" = quoteArg "a b" /\ "a b" = "a b"
  /\ Js.truthy (quoteArg EmptyString) = true.
Proof.
  split; [reflexivity|].
  split; [exact (proj1 quoteArg_injective "a b" "a b" eq_refl)
         | exact (proj2 quoteArg_injective EmptyString)].
Defined.

(** ** Suggestion engine *)

(** X16. For the key [install] a suggestion, when there is one, is always
    the install command of a package manager: one of [bun install],
    [yarn install], [pnpm install], [poetry install], [pipenv install],
    never a rewriting of the failed command. *)
Theorem install_suggestions_are_fixed :
  forall (cmd stderr : string) (flavor : Flavor) (key : option string) (s : string),
    keyIs key "install" = true ->
    buildSuggestion cmd stderr flavor key = Some s ->
    In s ["bun install"; "yarn install"; "pnpm install"; "poetry install";
          "pipenv install"].
Proof.
  intros cmd stderr flavor key s Hkey. unfold buildSuggestion. rewrite Hkey.
  destruct (Js.includes (Js.toLowerCase cmd) "npm "), (bun flavor), (yarn flavor),
    (pnpm flavor), (Js.testWord "pip" (Js.toLowerCase cmd)), (poetry flavor),
    (pipenv flavor); intros [= <-]; cbn; tauto.
Qed.

Lemma install_suggestions_are_fixed_witness :
  In "pnpm install" ["bun install"; "yarn install"; "pnpm install"; "poetry install";
                     "pipenv install"].
Proof.
  exact (install_suggestions_are_fixed "npm ci --legacy-peer-deps" "ERESOLVE"
           (MkFlavor false false true false false) (Some "install") "pnpm install"
           eq_refl eq_refl).
Defined.

(** ** Per-segment translator: letter case of the head *)

Lemma directMatch_lower (h1 h2 : string) (tbl : list (string * OsEntry)) :
  Js.toLowerCase h1 = Js.toLowerCase h2 -> directMatch h1 tbl = directMatch h2 tbl.
Proof.
  intros H. unfold directMatch, matchesHead.
  by rewrite H.
Qed.

(** X17. When the head of a segment matches a base key that has a value
    for the OS, the letter case of the head does not matter: two segments
    whose heads are equal up to case and whose tails are equal are
    translated to the same string. *)
Theorem head_case_is_ignored :
  forall (seg1 seg2 h1 h2 tail : string) (os : OS) (map : CommandMap)
         (key : string) (e : OsEntry) (r : string),
    matchHeadTail seg1 = Some (h1, tail) ->
    matchHeadTail seg2 = Some (h2, tail) ->
    Js.toLowerCase h1 = Js.toLowerCase h2 ->
    directMatch h1 (base map) = Some (key, e) ->
    forOS e os = Some r ->
    translateSingle seg1 os map = translateSingle seg2 os map.
Proof.
  intros seg1 seg2 h1 h2 tail os map key e r Hm1 Hm2 Hlow Hdm Hr.
  pose proof Hdm as Hdm2. rewrite (directMatch_lower h1 h2 _ Hlow) in Hdm2.
  unfold translateSingle. rewrite Hm1, Hm2. cbn zeta.
  rewrite !scanKeys_directMatch, Hdm, Hdm2. cbn [fmap option_fmap option_map snd].
  by rewrite Hr, Hlow.
Qed.

Lemma head_case_is_ignored_witness :
  translateSingle "LS -la" windows sampleMap = translateSingle "ls -la" windows sampleMap.
Proof.
  exact (head_case_is_ignored "LS -la" "ls -la" "LS" "ls" " -la" windows sampleMap
           "ls" (MkOsEntry (Some "dir") (Some "ls") (Some "ls")) "dir"
           eq_refl eq_refl eq_refl eq_refl eq_refl).
Defined.
